(** * FAQ extractor: a shallow embedding of [app.py] and [model.py]

    Python [str] values are sequences of Unicode code points, modelled as
    [list N].  The regular expressions of the program run on a small
    backtracking matcher with Python's priorities (greedy and lazy
    repetition, optional groups, look-ahead, captures). *)

From Stdlib Require Import NArith ZArith String Ascii.
From stdpp Require Import base decidable option list gmap.

Open Scope N_scope.
Open Scope list_scope.

(** ** Strings *)

Abbreviation str := (list N).

(** An ASCII literal of the source as a sequence of code points. *)
Definition lit (s : String.string) : str :=
  map N_of_ascii (list_ascii_of_string s).

Definition NL : N := 10.
Definition SP : N := 32.
Definition NBSP : N := 160.      (* "\xa0" *)
Definition PILCROW : N := 182.   (* U+00B6 *)
Definition A_CIRC : N := 194.    (* U+00C2 *)
Definition LBRACK : N := 91.
Definition RBRACK : N := 93.

Definition str_eqb (a b : str) : bool := bool_decide (a = b).

(** [str.isspace] and the class [\s] of [re] on [str] patterns agree: the
    Unicode white space of CPython. *)
Definition is_space (c : N) : bool :=
  ((9 <=? c) && (c <=? 13)) || ((28 <=? c) && (c <=? 32))
  || (c =? 133) || (c =? 160) || (c =? 5760)
  || ((8192 <=? c) && (c <=? 8202))
  || (c =? 8232) || (c =? 8233) || (c =? 8239) || (c =? 8287) || (c =? 12288).

(** [\d] on [str] patterns: the decimal digits (category Nd) of Unicode 14,
    given by the first code point of every run and its length. *)
Definition digit_runs : list (N * N) :=
  map (fun a => (a, 10))
    [48; 1632; 1776; 1984; 2406; 2534; 2662; 2790; 2918; 3046; 3174; 3302;
     3430; 3558; 3664; 3792; 3872; 4160; 4240; 6112; 6160; 6470; 6608; 6784;
     6800; 6992; 7088; 7232; 7248; 42528; 43216; 43264; 43472; 43504; 43600;
     44016; 65296; 66720; 68912; 69734; 69872; 69942; 70096; 70384; 70736;
     70864; 71248; 71360; 71472; 71904; 72016; 72784; 73040; 73120; 92768;
     92864; 93008; 123200; 123632; 125264; 130032]
  ++ [(120782, 50)].

Definition is_digit (c : N) : bool :=
  existsb (fun r => (fst r <=? c) && (c <? fst r + snd r)) digit_runs.

(** [.] without [re.S] excludes the line feed only; with [re.S] it is any
    character. *)
Definition any_char (c : N) : bool := true.
Definition not_newline (c : N) : bool := negb (c =? NL).

Definition is_char (x : N) (c : N) : bool := c =? x.
Definition one_of (xs : list N) (c : N) : bool := existsb (N.eqb c) xs.

(** A literal letter under [re.I]: the characters CPython matches for the
    letters that occur in the program's patterns. *)
Definition ci (letter : String.string) : N -> bool :=
  match lit letter with
  | [c] =>
      let up := if (97 <=? c) && (c <=? 122) then c - 32 else c in
      let lo := if (65 <=? c) && (c <=? 90) then c + 32 else c in
      let extra := if lo =? 115 then [383]            (* s ~ U+017F *)
                   else if lo =? 105 then [304; 305]  (* i ~ U+0130, U+0131 *)
                   else if lo =? 107 then [8490]      (* k ~ U+212A *)
                   else [] in
      one_of (up :: lo :: extra)
  | _ => fun _ => false
  end.

(** [str.strip()] with no argument. *)
Fixpoint lstrip (s : str) : str :=
  match s with
  | c :: s' => if is_space c then lstrip s' else s
  | [] => []
  end.

Definition rstrip (s : str) : str := rev (lstrip (rev s)).
Definition strip (s : str) : str := rstrip (lstrip s).

(** Truthiness of a [str] and of a list. *)
Definition truthy {A} (l : list A) : bool :=
  match l with [] => false | _ => true end.

(** [sep.join(parts)] *)
Fixpoint join (sep : str) (parts : list str) : str :=
  match parts with
  | [] => []
  | [p] => p
  | p :: ps => p ++ sep ++ join sep ps
  end.

Fixpoint startswith (p s : str) : bool :=
  match p, s with
  | [], _ => true
  | a :: p', b :: s' => (a =? b) && startswith p' s'
  | _ :: _, [] => false
  end.

Definition endswith (p s : str) : bool := startswith (rev p) (rev s).

(** ** The [re] module *)

Module re.

Inductive regex :=
| Chr (p : N -> bool)            (* one character of a class *)
| Eps
| Seq (r1 r2 : regex)
| Alt (r1 r2 : regex)            (* r1|r2, left first *)
| Opt (r : regex)                (* r?    greedy *)
| StarG (p : N -> bool)          (* [..]*  greedy *)
| StarL (p : N -> bool)          (* [..]*? lazy *)
| Group (i : nat) (r : regex)    (* capturing group number i *)
| Look (r : regex)               (* (?=r) *)
| EndZ.                          (* \Z *)

Definition PlusG (p : N -> bool) : regex := Seq (Chr p) (StarG p).

Fixpoint seq_of (rs : list regex) : regex :=
  match rs with
  | [] => Eps
  | [r] => r
  | r :: rs' => Seq r (seq_of rs')
  end.

(** The captured groups, latest first. *)
Definition groups := list (nat * str).

Fixpoint group (i : nat) (g : groups) : str :=
  match g with
  | [] => []
  | (j, s) :: g' => if Nat.eqb i j then s else group i g'
  end.

Section Exec.
Context {A : Type}.

(** Greedy: as many characters as possible, giving them back one at a
    time while the continuation fails. *)
Fixpoint star_greedy (p : N -> bool) (s : str) (k : str -> option A) : option A :=
  match s with
  | c :: s' =>
      if p c then
        match star_greedy p s' k with
        | Some x => Some x
        | None => k s
        end
      else k s
  | [] => k []
  end.

(** Lazy: as few characters as possible, taking one more while the
    continuation fails. *)
Fixpoint star_lazy (p : N -> bool) (s : str) (k : str -> option A) : option A :=
  match k s with
  | Some x => Some x
  | None =>
      match s with
      | c :: s' => if p c then star_lazy p s' k else None
      | [] => None
      end
  end.
End Exec.

(** [exec r s g k]: match [r] at the front of [s] with the groups [g] so far
    and hand the rest of the input to the continuation [k]; the first
    success in backtracking order is the result. *)
Fixpoint exec {A : Type} (r : regex) (s : str) (g : groups)
    (k : str -> groups -> option A) : option A :=
  match r with
  | Chr p =>
      match s with
      | c :: s' => if p c then k s' g else None
      | [] => None
      end
  | Eps => k s g
  | Seq r1 r2 => exec r1 s g (fun s' g' => exec r2 s' g' k)
  | Alt r1 r2 =>
      match exec r1 s g k with
      | Some x => Some x
      | None => exec r2 s g k
      end
  | Opt r1 =>
      match exec r1 s g k with
      | Some x => Some x
      | None => k s g
      end
  | StarG p => star_greedy p s (fun s' => k s' g)
  | StarL p => star_lazy p s (fun s' => k s' g)
  | Group i r1 =>
      exec r1 s g
        (fun s' g' => k s' ((i, take (length s - length s')%nat s) :: g'))
  | Look r1 =>
      match exec r1 s g (fun _ _ => Some tt) with
      | Some _ => k s g
      | None => None
      end
  | EndZ => match s with [] => k s g | _ => None end
  end.

(** The numbers of the capturing groups of a pattern. *)
Fixpoint group_ids (r : regex) : list nat :=
  match r with
  | Seq r1 r2 | Alt r1 r2 => group_ids r1 ++ group_ids r2
  | Opt r1 | Look r1 => group_ids r1
  | Group i r1 => i :: group_ids r1
  | _ => []
  end.

(** A match anchored at the front of [s]: its length and its groups. *)
Definition match_at (r : regex) (s : str) : option (nat * groups) :=
  exec r s [] (fun s' g => Some ((length s - length s')%nat, g)).

(** [re.findall]: the matches from left to right, without overlap.  [skip]
    counts the characters of the current match still to be passed. *)
Fixpoint findall_from (r : regex) (skip : nat) (s : str) : list groups :=
  match skip with
  | S n =>
      match s with
      | [] => []
      | _ :: s' => findall_from r n s'
      end
  | O =>
      match match_at r s with
      | Some (len, g) =>
          g :: match s with
               | [] => []
               | _ :: s' => findall_from r (Nat.pred len) s'
               end
      | None =>
          match s with
          | [] => []
          | _ :: s' => findall_from r 0 s'
          end
      end
  end.

Definition findall (r : regex) (s : str) : list groups := findall_from r 0 s.

(** [re.sub(r, repl, s)] with a constant replacement. *)
Fixpoint sub_from (r : regex) (repl : str) (skip : nat) (s : str) : str :=
  match skip with
  | S n =>
      match s with
      | [] => []
      | _ :: s' => sub_from r repl n s'
      end
  | O =>
      match match_at r s with
      | Some (len, _) =>
          repl ++ match s with
                  | [] => []
                  | c :: s' =>
                      match len with
                      | O => c :: sub_from r repl 0 s'
                      | S n => sub_from r repl n s'
                      end
                  end
      | None =>
          match s with
          | [] => []
          | c :: s' => c :: sub_from r repl 0 s'
          end
      end
  end.

Definition sub (r : regex) (repl : str) (s : str) : str := sub_from r repl 0 s.

End re.

Import re.

(** ** The parsed document ([bs4]) *)

#[local] Set Warnings "-register-all".

Module bs4.

(** A node of the tree [BeautifulSoup(html, "html.parser")] builds: a text
    string, a string that [get_text] passes over (comment, doctype,
    declaration), or a tag with its [id], its [class] values and its
    children.  The document itself is the list of its top-level nodes. *)
Inductive node :=
| Text (s : str)
| Special (s : str)
| Tag (name : str) (id : option str) (classes : list str) (children : list node).

Definition soup := list node.

Definition name_in (names : list String.string) (nm : str) : bool :=
  existsb (fun x => str_eqb (lit x) nm) names.

(** The strings [get_text] joins, in document order; with [strip=True]
    every string is stripped and dropped when nothing is left. *)
Fixpoint all_strings (strip_ : bool) (n : node) : list str :=
  match n with
  | Text s =>
      if strip_ then
        (if truthy (strip s) then [strip s] else [])
      else [s]
  | Special _ => []
  | Tag _ _ _ ch => flat_map (all_strings strip_) ch
  end.

Definition get_text (sep : str) (strip_ : bool) (n : node) : str :=
  join sep (all_strings strip_ n).

Definition soup_get_text (sep : str) (strip_ : bool) (d : soup) : str :=
  join sep (flat_map (all_strings strip_) d).

(** A tag found by a search, with the siblings that follow it. *)
Record element := { el_node : node; el_next : list node }.

Definition el_name (e : element) : str :=
  match el_node e with Tag nm _ _ _ => nm | _ => [] end.

(** [find_all] by tag name: the matching tags in document order. *)
Fixpoint find_all_in (p : str -> bool) (n : node) (next : list node) : list element :=
  match n with
  | Tag nm _ _ ch =>
      (if p nm then [{| el_node := n; el_next := next |}] else [])
      ++ (fix walk (l : list node) : list element :=
            match l with
            | [] => []
            | c :: l' => find_all_in p c l' ++ walk l'
            end) ch
  | _ => []
  end.

Fixpoint find_all (p : str -> bool) (d : soup) : list element :=
  match d with
  | [] => []
  | c :: d' => find_all_in p c d' ++ find_all p d'
  end.

(** [find_next_siblings()]: the tags among the following siblings. *)
Definition is_tag (n : node) : bool :=
  match n with Tag _ _ _ _ => true | _ => false end.

Definition node_name (n : node) : str :=
  match n with Tag nm _ _ _ => nm | _ => [] end.

Definition find_next_siblings (e : element) : list node :=
  filter (fun n => is_tag n = true) (el_next e).

(** [find_next_sibling()] and [find_next_sibling(name)]. *)
Definition find_next_sibling (e : element) : option node :=
  head (find_next_siblings e).

Definition find_next_sibling_named (nm : String.string) (e : element) : option node :=
  head (filter (fun n => str_eqb (node_name n) (lit nm) = true) (find_next_siblings e)).

(** The effect of [for tag in <search>: tag.decompose()]: every tag the
    search finds is taken out of the tree with all it contains. *)
Fixpoint decompose_in (p : str -> option str -> list str -> bool) (n : node) : list node :=
  match n with
  | Tag nm i cl ch =>
      if p nm i cl then [] else [Tag nm i cl (flat_map (decompose_in p) ch)]
  | _ => [n]
  end.

Definition decompose_all (p : str -> option str -> list str -> bool) (d : soup) : soup :=
  flat_map (decompose_in p) d.

End bs4.

Import bs4.

(** ** Effects: exceptions, early return and the Streamlit log *)

(** What [except Exception as e] catches: an error of a fetch, or the
    [HTTPError] of [raise_for_status]. *)
Inductive exn :=
| Exception (msg : str)
| HTTPError (status : Z).

Inductive result (A : Type) :=
| Returned (a : A)
| Raised (e : exn).
Arguments Returned {A} a.
Arguments Raised {A} e.

(** The calls to [st.error], [st.info] and [st.success], in order; an
    f-string keeps its exception or its number as a field. *)
Inductive ui :=
| st_error (before : String.string) (e : exn) (after : String.string)
| st_info (msg : String.string)
| st_success (before : String.string) (n : nat) (after : String.string).

(** A statement ends normally, returns from the enclosing function, or
    raises. *)
Inductive outcome (R A : Type) :=
| Normal (a : A)
| Return (r : R)
| Raise (e : exn).
Arguments Normal {R A} a.
Arguments Return {R A} r.
Arguments Raise {R A} e.

Definition M (R A : Type) : Type := outcome R A * list ui.

Definition ret {R A} (a : A) : M R A := (Normal a, []).
Definition return_ {R A} (r : R) : M R A := (Return r, []).
Definition say {R} (m : ui) : M R unit := (Normal tt, [m]).

Definition bind {R A B} (m : M R A) (f : A -> M R B) : M R B :=
  match m with
  | (Normal a, l) => let '(o, l') := f a in (o, l ++ l')
  | (Return r, l) => (Return r, l)
  | (Raise e, l) => (Raise e, l)
  end.

Notation "x <- m ;; k" := (bind m (fun x => k))
  (at level 200, m at level 99, k at level 200, right associativity).
Notation "m ;;; k" := (bind m (fun _ => k))
  (at level 200, k at level 200, right associativity).

(** A call of a function of the environment. *)
Definition call {R A} (r : result A) : M R A :=
  match r with
  | Returned a => (Normal a, [])
  | Raised e => (Raise e, [])
  end.

(** A call of a function of the program, with what it logged. *)
Definition call_fn {R A} (r : result A * list ui) : M R A :=
  match r with
  | (Returned a, l) => (Normal a, l)
  | (Raised e, l) => (Raise e, l)
  end.

(** [try: body except Exception as e: handler] *)
Definition try_except {R A} (body : M R A) (handler : exn -> M R A) : M R A :=
  match body with
  | (Raise e, l) => let '(o, l') := handler e in (o, l ++ l')
  | other => other
  end.

(** A statement that does not raise. *)
Definition no_raise {R A} (m : M R A) : Prop :=
  match fst m with
  | Raise _ => False
  | _ => True
  end.

(** The body of a function, seen from its caller. *)
Definition run {R} (body : M R R) : result R * list ui :=
  match body with
  | (Normal r, l) => (Returned r, l)
  | (Return r, l) => (Returned r, l)
  | (Raise e, l) => (Raised e, l)
  end.

(** ** The environment *)

Record response := { status_code : Z; text : str }.

(** [response.raise_for_status()] of [requests]: an [HTTPError] for the
    client and server error codes. *)
Definition raise_for_status (r : response) : result unit :=
  if ((400 <=? status_code r) && (status_code r <? 600))%Z
  then Raised (HTTPError (status_code r))
  else Returned tt.

(** What the network and the installed packages answer.  [html_session] is
    [None] when [requests_html] could not be imported ([HTMLSession = None]);
    otherwise it gives, for a URL, the outcome of opening the session,
    getting the page, rendering it and reading [r.html.html].  [chrome] is
    the outcome of driving headless Chrome to the URL and reading
    [page_source]. *)
Record world := {
  requests_get : str -> Z -> result response;
  html_session : option (str -> result str);
  chrome : str -> result str
}.

(** ** JSON values, dictionaries and the cache file *)

Inductive json :=
| JStr (s : str)
| JArr (l : list json)
| JObj (o : list (str * json)).

(** A [dict] with [str] keys, in insertion order. *)
Definition dict := list (str * json).

Fixpoint dict_get (k : str) (d : dict) : option json :=
  match d with
  | [] => None
  | (k', v) :: d' => if str_eqb k k' then Some v else dict_get k d'
  end.

Definition dict_in (k : str) (d : dict) : bool :=
  match dict_get k d with Some _ => true | None => false end.

(** [d[k] = v] *)
Fixpoint dict_set (k : str) (v : json) (d : dict) : dict :=
  match d with
  | [] => [(k, v)]
  | (k', v') :: d' =>
      if str_eqb k k' then (k', v) :: d' else (k', v') :: dict_set k v d'
  end.

(** The cache file: absent, or a sequence of JSON documents one after the
    other (what [json.dump] and [json.dumps] write is one document each;
    the line feeds between them are white space).  [json.load] decodes a
    file that holds exactly one document and raises [JSONDecodeError] on
    any other. *)
Definition file := option (list dict).

Definition json_load (docs : list dict) : option dict :=
  match docs with
  | [d] => Some d
  | _ => None
  end.

(** ** The patterns of the program *)

Definition word_ci (w : String.string) : regex :=
  seq_of (map (fun a => Chr (ci (String a EmptyString))) (list_ascii_of_string w)).

Definition COLON : N := 58.

(** * [app.py] *)

Module app.

Record faq := { question : str; answer : str }.

(** [r"[¶Â]"], [r"\[\d+\]"], [r"\s+"], [r"\xa0"] *)
Definition re_symbols : regex := Chr (one_of [PILCROW; A_CIRC]).
Definition re_citation : regex :=
  seq_of [Chr (is_char LBRACK); PlusG is_digit; Chr (is_char RBRACK)].
Definition re_spaces : regex := PlusG is_space.
Definition re_nbsp : regex := Chr (is_char NBSP).

Definition clean_text (text : str) : str :=
  let text := sub re_symbols [] text in
  let text := sub re_citation [] text in
  let text := sub re_spaces [SP] text in
  let text := sub re_nbsp [SP] text in
  strip text.

Definition noisy_tags : list String.string :=
  ["script"; "style"; "nav"; "footer"; "header"; "form";
   "noscript"; "iframe"; "button"; "input"; "aside"]%string.

Definition remove_noisy_tags (d : soup) : soup :=
  decompose_all (fun nm _ _ => name_in noisy_tags nm) d.

(** [r"Q(?:uestion)?:?\s*(.*?)(?:A(?:nswer)?:)?\s*(.*?)(?=\nQ|\Z)"] with
    [re.I | re.S]; [re_qna_rest] is what follows the first group. *)
Definition re_qna_rest : regex :=
  seq_of [Opt (seq_of [Chr (ci "A"); Opt (word_ci "nswer"); Chr (is_char COLON)]);
          StarG is_space;
          Group 2 (StarL any_char);
          Look (Alt (Seq (Chr (is_char NL)) (Chr (ci "Q"))) EndZ)].

Definition re_qna : regex :=
  seq_of [Chr (ci "Q"); Opt (word_ci "uestion"); Opt (Chr (is_char COLON));
          StarG is_space;
          Group 1 (StarL any_char);
          re_qna_rest].

(** 1. The loop over the explicit [Q:] / [A:] matches. *)
Definition explicit_qna (text : str) (faqs : list faq) : list faq :=
  fold_left
    (fun faqs g =>
       let q := group 1 g in
       let a := group 2 g in
       if truthy (strip q) && truthy (strip a)
       then faqs ++ [{| question := clean_text q; answer := clean_text a |}]
       else faqs)
    (findall re_qna text) faqs.

(** 2. The loop over [zip(soup.find_all("dt"), soup.find_all("dd"))]. *)
Definition dt_dd (d : soup) (faqs : list faq) : list faq :=
  fold_left
    (fun faqs '(dt, dd) =>
       let q := get_text [] true (el_node dt) in
       let a := get_text [] true (el_node dd) in
       if truthy q && truthy a
       then faqs ++ [{| question := q; answer := a |}]
       else faqs)
    (zip (find_all (name_in ["dt"%string]) d) (find_all (name_in ["dd"%string]) d))
    faqs.

(** 3. The loop over the headings. *)
Definition heading_paragraph (d : soup) (faqs : list faq) : list faq :=
  fold_left
    (fun faqs heading =>
       match find_next_sibling heading with
       | Some next_tag =>
           if name_in ["p"; "div"; "li"; "span"]%string (node_name next_tag) then
             let q := get_text [] true (el_node heading) in
             let a := get_text [] true next_tag in
             if endswith (lit "?") q && truthy a
             then faqs ++ [{| question := q; answer := a |}]
             else faqs
           else faqs
       | None => faqs
       end)
    (find_all (name_in ["h1"; "h2"; "h3"; "h4"]%string) d)
    faqs.

(** 4. The broader search over consecutive texts. *)
Definition question_answer_lists (texts : list str) : list str * list str :=
  fold_left
    (fun '(questions, answers) i =>
       let t := texts !!! i in
       let t1 := texts !!! (i + 1)%nat in
       if (startswith (lit "Q") t || endswith (lit "?") t) && startswith (lit "A") t1
       then (questions ++ [t], answers ++ [t1])
       else (questions, answers))
    (seq 0 (length texts - 1)%nat)
    ([], []).

Definition broad_search (d : soup) (faqs : list faq) : list faq :=
  let texts :=
    map (fun t => get_text [SP] true (el_node t))
      (find_all (name_in ["p"; "div"; "li"; "span"; "h2"; "h3"; "h4"; "strong"; "b"]%string) d) in
  let '(questions, answers) := question_answer_lists texts in
  fold_left
    (fun faqs '(q, a) => faqs ++ [{| question := q; answer := a |}])
    (zip questions answers)
    faqs.

(** [extract_faqs_from_html] from the parsed document on. *)
Definition extract_faqs_from_soup (d : soup) : list faq :=
  let faqs := [] in
  let d := remove_noisy_tags d in
  let text := soup_get_text [NL] true d in
  let faqs := explicit_qna text faqs in
  if truthy faqs then faqs else
  let faqs := dt_dd d faqs in
  if truthy faqs then faqs else
  let faqs := heading_paragraph d faqs in
  if truthy faqs then faqs else
  let faqs := broad_search d faqs in
  faqs.

Definition faq_to_json (f : faq) : json :=
  JObj [(lit "question", JStr (question f)); (lit "answer", JStr (answer f))].

(** [load_faq_cache] and [save_faq_cache] on the file [faqs.json]. *)
Definition load_faq_cache (DATA_FILE : file) : dict :=
  match DATA_FILE with
  | Some docs =>
      match json_load docs with
      | Some d => d
      | None => []
      end
  | None => []
  end.

Definition save_faq_cache (faq_store : dict) : file := Some [faq_store].

(** The store in memory and the cache file. *)
Record session := { faq_store : dict; DATA_FILE : file }.

(** What the page then shows: where the pairs came from, and the pairs. *)
Record view := { from_cache : bool; faqs : json }.

Section Pipeline.
(** [BeautifulSoup(html, "html.parser")]: the tree, or the exception the
    parser raises on markup it rejects. *)
Variable html_parser : str -> result soup.

Definition extract_faqs_from_html (html : str) : result (list faq) :=
  match html_parser html with
  | Returned d => Returned (extract_faqs_from_soup d)
  | Raised e => Raised e
  end.

Definition get_page_source_selenium (w : world) (url : str) : result str :=
  chrome w url.

Definition fetch_and_extract_all (w : world) (url : str) : result (list faq) * list ui :=
  run (
    let html : str := [] in
    let faqs : list faq := [] in
    faqs <- try_except
      (response <- call (requests_get w url 10) ;;
       call (raise_for_status response) ;;;
       let html := text response in
       faqs <- call (extract_faqs_from_html html) ;;
       if truthy faqs then return_ faqs else ret faqs)
      (fun e =>
         say (st_error "[!] Requests failed: " e ". Attempting fallback...") ;;;
         ret faqs) ;;
    faqs <-
      match html_session w with
      | Some session_get_render =>
          if negb (truthy faqs) then
            say (st_info "Falling back to requests_html for JS rendering...") ;;;
            try_except
              (html <- call (session_get_render url) ;;
               faqs <- call (extract_faqs_from_html html) ;;
               if truthy faqs then return_ faqs else ret faqs)
              (fun e =>
                 say (st_error "[!] requests_html failed: " e ". Attempting final fallback...") ;;;
                 ret faqs)
          else ret faqs
      | None => ret faqs
      end ;;
    (if negb (truthy faqs) then
       say (st_info "Falling back to Selenium for full browser automation...") ;;;
       try_except
         (html <- call (get_page_source_selenium w url) ;;
          faqs <- call (extract_faqs_from_html html) ;;
          return_ faqs)
         (fun e =>
            say (st_error "[!] Selenium failed: " e ".") ;;;
            return_ [])
     else ret tt) ;;;
    return_ faqs).

(** The body of [if st.button("Extract FAQs"):]. *)
Definition extract_button (w : world) (url : str) (s : session)
  : result (session * option view) * list ui :=
  run (
    if truthy url then
      if dict_in url (faq_store s) then
        say (st_info "Loaded FAQs from cache ") ;;;
        let faqs := default (JArr []) (dict_get url (faq_store s)) in
        ret (s, Some {| from_cache := true; faqs := faqs |})
      else
        faqs <- call_fn (fetch_and_extract_all w url) ;;
        let s :=
          if truthy faqs then
            let faq_store := dict_set url (JArr (map faq_to_json faqs)) (faq_store s) in
            {| faq_store := faq_store; DATA_FILE := save_faq_cache faq_store |}
          else s in
        ret (s, Some {| from_cache := false; faqs := JArr (map faq_to_json faqs) |})
    else ret (s, None)).

(** One run of the script: the store is loaded from the file, then the
    button is handled. *)
Definition script_run (w : world) (url : str) (f : file)
  : result (session * option view) * list ui :=
  extract_button w url {| faq_store := load_faq_cache f; DATA_FILE := f |}.
End Pipeline.

End app.

(** * [model.py] *)

Fixpoint contains (p s : str) : bool :=
  startswith p s ||
  match s with
  | [] => false
  | _ :: s' => contains p s'
  end.

Module model.

Record faq := { Q : str; A : str }.

Definition re_pilcrow : regex := Chr (is_char PILCROW).
Definition re_a_circ : regex := Chr (is_char A_CIRC).
(** [r"<\[\d+\]"] *)
Definition re_citation : regex :=
  seq_of [Chr (is_char 60); Chr (is_char LBRACK); PlusG is_digit; Chr (is_char RBRACK)].
Definition re_spaces : regex := PlusG is_space.
Definition re_nbsp : regex := Chr (is_char NBSP).
(** [r"\[.*?\]"] *)
Definition re_bracketed : regex :=
  seq_of [Chr (is_char LBRACK); StarL not_newline; Chr (is_char RBRACK)].

Definition clean_text (text : str) : str :=
  let text := sub re_pilcrow [] text in
  let text := sub re_a_circ [] text in
  let text := sub re_citation [] text in
  let text := sub re_spaces [SP] text in
  let text := sub re_nbsp [SP] text in
  let text := sub re_bracketed [SP] text in
  strip text.

(** [r"Q[:\-]?\s*(.*?)\n\s*A[:\-]?\s*(.*?)(?=\nQ[:\-]|\Z)"] with
    [re.S | re.I] *)
Definition colon_dash : N -> bool := one_of [COLON; 45].

Definition re_qa : regex :=
  seq_of [Chr (ci "Q"); Opt (Chr colon_dash); StarG is_space;
          Group 1 (StarL any_char);
          Chr (is_char NL); StarG is_space;
          Chr (ci "A"); Opt (Chr colon_dash); StarG is_space;
          Group 2 (StarL any_char);
          Look (Alt (seq_of [Chr (is_char NL); Chr (ci "Q"); Chr colon_dash]) EndZ)].

Definition noise_tags : list String.string :=
  ["head"; "script"; "style"; "nav"; "footer"; "header"; "form"; "noscript";
   "iframe"; "button"; "input"; "aside"; "svg"; "canvas"; "link"; "meta"]%string.

Definition noisy : list String.string :=
  ["footer"; "header"; "nav"; "toc"; "sidebar"; "masthead"; "menu"; "cookies";
   "ads"; "advertisement"; "promo"; "newsletter"]%string.

(** The pairs accepted so far and the two sets of texts already seen. *)
Record found := { faqs : list faq; seen_q : gset str; seen_a : gset str }.

(** [if q and a and q not in seen_q and a not in seen_a: ...] *)
Definition accept (q a : str) (f : found) : found :=
  if truthy q && truthy a && bool_decide (q ∉ seen_q f) && bool_decide (a ∉ seen_a f)
  then {| faqs := faqs f ++ [{| Q := q; A := a |}];
          seen_q := seen_q f ∪ {[q]};
          seen_a := seen_a f ∪ {[a]} |}
  else f.

(** Mode A: the [Q: ... A: ...] pattern in the raw text. *)
Definition mode_A (d : soup) (f : found) : found :=
  let text := soup_get_text [NL] false d in
  fold_left
    (fun f g => accept (clean_text (group 1 g)) (clean_text (group 2 g)) f)
    (findall re_qa text) f.

(** Mode B: [<dt>] with the next [<dd>] sibling. *)
Definition mode_B (d : soup) (f : found) : found :=
  fold_left
    (fun f dt =>
       match find_next_sibling_named "dd" dt with
       | Some dd =>
           accept (clean_text (get_text [] false (el_node dt)))
                  (clean_text (get_text [] false dd)) f
       | None => f
       end)
    (find_all (name_in ["dt"%string]) d) f.

(** The inner loop of mode C over the following siblings, up to the
    [break]. *)
Fixpoint answer_parts (siblings : list node) : list str :=
  match siblings with
  | [] => []
  | sibling :: rest =>
      if name_in ["h2"; "h3"; "h4"; "dt"; "div"]%string (node_name sibling) then []
      else if name_in ["p"; "dd"; "ul"; "ol"]%string (node_name sibling)
      then clean_text (get_text [SP] true sibling) :: answer_parts rest
      else answer_parts rest
  end.

(** Mode C: a heading and the content that follows it. *)
Definition mode_C (d : soup) (f : found) : found :=
  fold_left
    (fun f heading =>
       let q := clean_text (get_text [] false (el_node heading)) in
       if negb (truthy q) || bool_decide (q ∈ seen_q f) then f
       else
         let a := join [SP] (answer_parts (find_next_siblings heading)) in
         if truthy a && bool_decide (a ∉ seen_a f)
         then {| faqs := faqs f ++ [{| Q := q; A := a |}];
                 seen_q := seen_q f ∪ {[q]};
                 seen_a := seen_a f ∪ {[a]} |}
         else f)
    (find_all (name_in ["h2"; "h3"; "h4"]%string) d) f.

Definition faq_to_json (f : faq) : json :=
  JObj [(lit "Q", JStr (Q f)); (lit "A", JStr (A f))].

(** The loading of [faqs.jsonl] at the start of the script, and
    [save_faq_store], which writes one document for every entry. *)
Definition load_faq_store (DATA_FILE : file) : dict :=
  match DATA_FILE with
  | Some docs =>
      match json_load docs with
      | Some d => d
      | None => []
      end
  | None => []
  end.

Definition save_faq_store (faq_store : dict) : file :=
  Some (map (fun '(key, value) => [(lit "url", JStr key); (lit "faqs", value)]) faq_store).

Record session := { faq_store : dict; DATA_FILE : file }.
Record view := { from_cache : bool; shown : json }.

Section Pipeline.
(** [str.lower], and [BeautifulSoup(html, "html.parser")]: the tree, or
    the exception the parser raises on markup it rejects. *)
Variable str_lower : str -> str.
Variable html_parser : str -> result soup.

Definition fetch_html (w : world) (url : str) : result str * list ui :=
  run (
    html <- try_except
      (res <- call (requests_get w url 15) ;;
       call (raise_for_status res) ;;;
       ret (text res))
      (fun e => say (st_error "[!] Requests failed: " e "") ;;; ret []) ;;
    html <-
      match html_session w with
      | Some session_get_render =>
          if contains (lit "faq") (str_lower url) || negb (truthy (strip html)) then
            try_except
              (html <- call (session_get_render url) ;; ret html)
              (fun e => say (st_error "[!] JS rendering failed: " e "") ;;; ret html)
          else ret html
      | None => ret html
      end ;;
    return_ html).

Definition marked (nid : String.string) (x : str) : bool :=
  truthy x && contains (lit nid) (str_lower x).

Definition remove_noise (d : soup) : soup :=
  let d := decompose_all (fun nm _ _ => name_in noise_tags nm) d in
  fold_left
    (fun d nid =>
       let d := decompose_all
                  (fun _ id _ => match id with Some x => marked nid x | None => false end) d in
       decompose_all
         (fun _ _ classes => existsb (marked nid) classes || marked nid (join [SP] classes)) d)
    noisy d.

(** [extract_faq] from the parsed document on. *)
Definition extract_faq_from_soup (d : soup) : list faq :=
  let d := remove_noise d in
  let f := {| faqs := []; seen_q := ∅; seen_a := ∅ |} in
  let f := mode_A d f in
  let f := mode_B d f in
  let f := mode_C d f in
  faqs f.

Definition extract_faq (w : world) (url : str) : result (list faq) * list ui :=
  run (
    html <- call_fn (fetch_html w url) ;;
    if negb (truthy html) then return_ []
    else
      soup <- call (html_parser html) ;;
      return_ (extract_faq_from_soup soup)).

(** The body of [if url:]. *)
Definition on_url (w : world) (url : str) (s : session)
  : result (session * option view) * list ui :=
  run (
    if truthy url then
      if dict_in url (faq_store s) then
        say (st_info "Loaded FAQs from cache") ;;;
        let faqs := default (JArr []) (dict_get url (faq_store s)) in
        ret (s, Some {| from_cache := true; shown := faqs |})
      else
        faqs <- call_fn (extract_faq w url) ;;
        let faq_store := dict_set url (JArr (map faq_to_json faqs)) (faq_store s) in
        let s := {| faq_store := faq_store; DATA_FILE := save_faq_store faq_store |} in
        say (st_success "Extracted " (length faqs) " FAQs and cached.") ;;;
        ret (s, Some {| from_cache := false; shown := JArr (map faq_to_json faqs) |})
    else ret (s, None)).

Definition script_run (w : world) (url : str) (f : file)
  : result (session * option view) * list ui :=
  on_url w url {| faq_store := load_faq_store f; DATA_FILE := f |}.
End Pipeline.

End model.

(** ** Definitions used by the statements *)


(** Tier 1 fails with [e]: [requests.get] raises it, or the response has a
    status for which [raise_for_status] raises it. *)
Definition tier1_fails (w : world) (url : str) (timeout : Z) (e : exn) : Prop :=
  requests_get w url timeout = Raised e
  \/ exists r, requests_get w url timeout = Returned r /\ raise_for_status r = Raised e.

Definition empty_found : model.found :=
  {| model.faqs := []; model.seen_q := ∅; model.seen_a := ∅ |}.

(** The session a request leaves behind. *)
Definition session_after {S V} (r : result (S * V) * list ui) (s : S) : S :=
  match fst r with
  | Returned (s', _) => s'
  | Raised _ => s
  end.

(** The tiers after the first, as the cascade is described: the scripted
    render when it is available, then the full browser unless the render
    gave pairs; a page the parser rejects fails its tier.  With the pairs,
    the messages shown. *)
Section LaterTiers.
Variable html_parser : str -> result soup.

(** What a tier gives: the pairs of the page it fetched. *)
Definition tier_pairs (page : result str) : result (list app.faq) :=
  match page with
  | Returned html => app.extract_faqs_from_html html_parser html
  | Raised e => Raised e
  end.

Definition browser_tier (w : world) (url : str) : list app.faq * list ui :=
  match tier_pairs (chrome w url) with
  | Returned faqs =>
      (faqs, [st_info "Falling back to Selenium for full browser automation..."])
  | Raised e =>
      ([], [st_info "Falling back to Selenium for full browser automation...";
            st_error "[!] Selenium failed: " e "."])
  end.

Definition later_tiers (w : world) (url : str) : list app.faq * list ui :=
  match html_session w with
  | None => browser_tier w url
  | Some render =>
      match tier_pairs (render url) with
      | Returned faqs =>
          if truthy faqs
          then (faqs, [st_info "Falling back to requests_html for JS rendering..."])
          else (fst (browser_tier w url),
                st_info "Falling back to requests_html for JS rendering..."
                :: snd (browser_tier w url))
      | Raised e =>
          (fst (browser_tier w url),
           st_info "Falling back to requests_html for JS rendering..."
           :: st_error "[!] requests_html failed: " e ". Attempting final fallback..."
           :: snd (browser_tier w url))
      end
  end.

(** Tier 1 of [app.py] fails with [e]: the request or the status check
    raises it, or the parser rejects the body. *)
Definition app_tier1_fails (w : world) (url : str) (e : exn) : Prop :=
  tier1_fails w url 10 e
  \/ exists r, requests_get w url 10 = Returned r /\ raise_for_status r = Returned tt
                /\ html_parser (text r) = Raised e.
End LaterTiers.

(** What has been found is consistent: no question and no answer occurs
    twice, and the two sets hold the questions and the answers found. *)
Definition deduplicated (f : model.found) : Prop :=
  NoDup (map model.Q (model.faqs f))
  /\ NoDup (map model.A (model.faqs f))
  /\ (forall x, x ∈ model.faqs f -> model.Q x ∈ model.seen_q f /\ model.A x ∈ model.seen_a f).

Definition app_filled (f : app.faq) : Prop := app.question f <> [] /\ app.answer f <> [].
Definition model_filled (f : model.faq) : Prop := model.Q f <> [] /\ model.A f <> [].

(** The length of the longest prefix made of characters of a class. *)
Fixpoint span_len (p : N -> bool) (s : str) : nat :=
  match s with
  | c :: s' => if p c then S (span_len p s') else O
  | [] => O
  end.

(** A citation marker at the front of a text: an opening bracket, one or
    more digits, a closing bracket; its length. *)
Definition citation_marker (s : str) : option nat :=
  match s with
  | c :: s1 =>
      if c =? LBRACK then
        match span_len is_digit s1, drop (span_len is_digit s1) s1 with
        | S k, d :: _ => if d =? RBRACK then Some (S (S (S k))) else None
        | _, _ => None
        end
      else None
  | [] => None
  end.

(** The text without its citation markers, found from left to right;
    [skip] counts the characters of the current marker still to be
    dropped. *)
Fixpoint remove_citation_markers_from (skip : nat) (s : str) : str :=
  match s with
  | [] => []
  | c :: s' =>
      match skip with
      | S n => remove_citation_markers_from n s'
      | O =>
          match citation_marker s with
          | Some len => remove_citation_markers_from (Nat.pred len) s'
          | None => c :: remove_citation_markers_from 0 s'
          end
      end
  end.

Definition remove_citation_markers (s : str) : str := remove_citation_markers_from 0 s.

(** A citation marker starts somewhere in the text. *)
Fixpoint has_marker (s : str) : bool :=
  match s with
  | [] => false
  | _ :: s' =>
      match citation_marker s with Some _ => true | None => false end || has_marker s'
  end.

(** The number of characters before the first closing bracket, when no
    line feed comes before it. *)
Fixpoint span_close (t : str) : option nat :=
  match t with
  | [] => None
  | d :: t' =>
      if d =? RBRACK then Some O
      else if d =? NL then None
      else option_map S (span_close t')
  end.

(** A bracketed span at the front of a text: an opening bracket and
    whatever follows on the line up to the first closing bracket. *)
Definition bracketed_span (s : str) : option nat :=
  match s with
  | c :: t => if c =? LBRACK then option_map (fun k => S (S k)) (span_close t) else None
  | [] => None
  end.



(** White space is normalized: a white space character is a space, and the
    character after it is not white space. *)
Definition starts_nonspace (s : str) : Prop :=
  match s with
  | [] => True
  | d :: _ => is_space d = false
  end.

Fixpoint spaced (s : str) : Prop :=
  match s with
  | [] => True
  | c :: s' => (is_space c = true -> c = SP /\ starts_nonspace s') /\ spaced s'
  end.

(** A text the normalizers leave as it is: no pilcrow, no [Â], no opening
    bracket, normalized white space, none of it at either end. *)
Definition plain (c : N) : Prop := c <> PILCROW /\ c <> A_CIRC /\ c <> LBRACK.

Definition normal (t : str) : Prop := Forall plain t /\ spaced t /\ strip t = t.



(** ** Sample inputs *)

Definition lines (ls : list String.string) : str := join [NL] (map lit ls).

Definition tag (nm : String.string) (ch : list node) : node := Tag (lit nm) None [] ch.

Definition sample : str := lines ["Q: What?"; "A: This."; "Q: Why?"; "A: Because."]%string.

(** [str.lower] on ASCII text. *)
Definition ascii_lower (s : str) : str :=
  map (fun c => if (65 <=? c) && (c <=? 90) then c + 32 else c) s.



(** A page source and the tree [html.parser] builds from it; any other
    text of the samples has no markup and parses to one string. *)
Definition page_source : str := lit "<dl><dt>Why?</dt><dd>Because.</dd></dl>".
Definition page_soup : soup :=
  [tag "dl" [tag "dt" [Text (lit "Why?")]; tag "dd" [Text (lit "Because.")]]].

(** Markup that [html.parser] rejects ([ParserRejectedMarkup]). *)
Definition rejected_source : str := lit "<p>Q: a?</p><![foo]>".

Definition sample_parser (html : str) : result soup :=
  if str_eqb html rejected_source then Raised (Exception (lit "ParserRejectedMarkup"))
  else if str_eqb html page_source then Returned page_soup
  else Returned [Text html].

Definition url1 : str := lit "http://example.org/help".
Definition url2 : str := lit "http://example.org/about".

(** Tier 1 times out, no [requests_html], Chrome gets the page. *)
Definition w_only_chrome : world :=
  {| requests_get := fun _ _ => Raised (Exception (lit "timed out"));
     html_session := None;
     chrome := fun _ => Returned page_source |}.

(** Every tier fails. *)
Definition w_all_down : world :=
  {| requests_get := fun _ _ => Raised (Exception (lit "timed out"));
     html_session := Some (fun _ => Raised (Exception (lit "render failed")));
     chrome := fun _ => Raised (Exception (lit "no chrome")) |}.

(** Tier 1 answers with status 300 and the page as its body. *)
Definition w_status_300 : world :=
  {| requests_get := fun _ _ => Returned {| status_code := 300; text := page_source |};
     html_session := Some (fun _ => Returned page_source);
     chrome := fun _ => Returned page_source |}.

(** Tier 1 answers 200 with a page without any pair. *)
Definition w_no_faqs : world :=
  {| requests_get := fun _ _ => Returned {| status_code := 200; text := lit "nothing here" |};
     html_session := None;
     chrome := fun _ => Returned (lit "nothing here") |}.

(** Tier 1 answers 200 with the page. *)
Definition w_page : world :=
  {| requests_get := fun _ _ => Returned {| status_code := 200; text := page_source |};
     html_session := None;
     chrome := fun _ => Returned page_source |}.

(** Tier 1 answers 200 with markup the parser rejects. *)
Definition w_rejected : world :=
  {| requests_get := fun _ _ => Returned {| status_code := 200; text := rejected_source |};
     html_session := None;
     chrome := fun _ => Returned page_source |}.

(** Tier 1 answers 200 with the text of the example as the page. *)
Definition w_sample : world :=
  {| requests_get := fun _ _ => Returned {| status_code := 200; text := sample |};
     html_session := None;
     chrome := fun _ => Returned sample |}.

Definition app_start : app.session := {| app.faq_store := []; app.DATA_FILE := None |}.
Definition model_start : model.session := {| model.faq_store := []; model.DATA_FILE := None |}.

Definition why_because_json : json :=
  JArr [JObj [(lit "Q", JStr (lit "Why?")); (lit "A", JStr (lit "Because."))]].

Definition both_pairs_json : json :=
  JArr [JObj [(lit "Q", JStr (lit "What?")); (lit "A", JStr (lit "This."))];
        JObj [(lit "Q", JStr (lit "Why?")); (lit "A", JStr (lit "Because."))]].

Definition why_because : app.faq :=
  {| app.question := lit "Why?"; app.answer := lit "Because." |}.

(** ** Definitions for the further properties *)

(** A tag for which [p] holds occurs in the tree. *)
Fixpoint has_tag (p : str -> option str -> list str -> bool) (n : node) : bool :=
  match n with
  | Tag nm i cl ch => p nm i cl || existsb (has_tag p) ch
  | _ => false
  end.

Definition soup_has_tag (p : str -> option str -> list str -> bool) (d : soup) : bool :=
  existsb (has_tag p) d.

(** The number of tags of a tree. *)
Fixpoint count_tags (n : node) : nat :=
  match n with
  | Tag _ _ _ ch => S (list_sum (map count_tags ch))
  | _ => O
  end.

Definition soup_count_tags (d : soup) : nat := list_sum (map count_tags d).

(** The searches of [remove_noisy_tags] and [remove_noise]: by tag name,
    by a marker in the [id], by a marker in a [class]. *)
Definition by_name (names : list String.string) : str -> option str -> list str -> bool :=
  fun nm _ _ => name_in names nm.

Definition by_id (str_lower : str -> str) (nid : String.string)
  : str -> option str -> list str -> bool :=
  fun _ id _ => match id with Some x => model.marked str_lower nid x | None => false end.

Definition by_class (str_lower : str -> str) (nid : String.string)
  : str -> option str -> list str -> bool :=
  fun _ _ classes =>
    existsb (model.marked str_lower nid) classes
    || model.marked str_lower nid (join [SP] classes).

(** One round of the loop over the markers in [remove_noise]. *)
Definition noise_pass (str_lower : str -> str) (d : soup) (nid : String.string) : soup :=
  decompose_all (by_class str_lower nid) (decompose_all (by_id str_lower nid) d).

(** A document without any tag: text, comments and the like. *)
Definition tagless (d : soup) : Prop := Forall (fun n => is_tag n = false) d.


(** [model.py], the answer shown for the question selected:
    [next((line["A"] for line in faqs if line["Q"] == question), "Not found")] *)
Definition selected_answer (question : str) (faqs : list model.faq) : str :=
  default (lit "Not found")
    (head (map model.A (filter (fun line => model.Q line = question) faqs))).

(** No opening bracket is followed, however far, by a closing bracket. *)
Fixpoint no_bracket_pair (u : str) : Prop :=
  match u with
  | [] => True
  | c :: u' => (c = LBRACK -> RBRACK ∉ u') /\ no_bracket_pair u'
  end.

(** The tags at which the inner loop of mode C stops. *)
Definition stops_answer (n : node) : bool :=
  name_in ["h2"; "h3"; "h4"; "dt"; "div"]%string (node_name n).

(** A character [clean_text] lets through: no pilcrow, no [Â], and no
    white space but the space. *)
Definition clean_char (c : N) : Prop :=
  c <> PILCROW /\ c <> A_CIRC /\ (is_space c = true -> c = SP).

(** A character that no step of [clean_text] of [app.py] can remove: no
    white space, no pilcrow, no [Â], no bracket and no digit. *)
Definition solid (c : N) : Prop :=
  is_space c = false /\ c <> PILCROW /\ c <> A_CIRC /\ c <> LBRACK /\ c <> RBRACK
  /\ is_digit c = false.

(** A definition list whose term is a pilcrow and whose description is a
    citation marker; a heading followed by two empty paragraphs. *)
Definition doc_symbol_dl : soup :=
  [tag "dl" [tag "dt" [Text [PILCROW]]; tag "dd" [Text (lit "[1]")]]].

(** Two headings whose answers differ by a run of spaces only. *)
Definition doc_two_headings : soup :=
  [tag "h2" [Text (lit "One?")]; tag "p" [Text (lit "a")]; tag "p" []; tag "p" [Text (lit "b")];
   tag "h2" [Text (lit "Two?")]; tag "p" [Text (lit "a b")]].

Definition doc_empty_paragraphs : soup :=
  [tag "h2" [Text (lit "How?")]; tag "p" []; tag "p" []].

(** ** The browser of [get_page_source_selenium], call by call *)

Module selenium.

(** The calls made on the driver, in order. *)
Inductive call :=
| webdriver_Chrome             (* webdriver.Chrome(options=chrome_options) *)
| driver_get (url : str)       (* driver.get(url) *)
| time_sleep (seconds : Z)     (* time.sleep(5) *)
| driver_page_source           (* driver.page_source *)
| driver_quit.                 (* driver.quit() *)

(** What the installed Chrome answers to each call. *)
Record driver := {
  on_Chrome : result unit;
  on_get : str -> result unit;
  on_page_source : result str;
  on_quit : result unit
}.

(** [get_page_source_selenium]: the calls made, and what the function
    returns or raises; there is no [try] in it. *)
Definition get_page_source_selenium (c : driver) (url : str) : result str * list call :=
  match on_Chrome c with
  | Raised e => (Raised e, [webdriver_Chrome])
  | Returned _ =>
      match on_get c url with
      | Raised e => (Raised e, [webdriver_Chrome; driver_get url])
      | Returned _ =>
          match on_page_source c with
          | Raised e =>
              (Raised e, [webdriver_Chrome; driver_get url; time_sleep 5; driver_page_source])
          | Returned page_source =>
              match on_quit c with
              | Raised e =>
                  (Raised e, [webdriver_Chrome; driver_get url; time_sleep 5;
                              driver_page_source; driver_quit])
              | Returned _ =>
                  (Returned page_source,
                   [webdriver_Chrome; driver_get url; time_sleep 5;
                    driver_page_source; driver_quit])
              end
          end
      end
  end.

End selenium.

(** Chrome starts and the page does not load. *)
Definition chrome_page_down : selenium.driver :=
  {| selenium.on_Chrome := Returned tt;
     selenium.on_get := fun _ => Raised (Exception (lit "net::ERR_NAME_NOT_RESOLVED"));
     selenium.on_page_source := Returned page_source;
     selenium.on_quit := Returned tt |}.

(** * Theorems *)

(** ** The extraction cascade *)


Lemma truthy_true {A} (l : list A) : truthy l = true -> l <> [].
Proof. destruct l; [discriminate | intros _; discriminate]. Qed.







(** ** The matcher *)

Lemma star_greedy_sound {A} p (k : str -> option A) s x :
  star_greedy p s k = Some x -> exists s', k s' = Some x.
Proof.
  induction s as [|c s IH]; simpl; [eauto|].
  destruct (p c); [|eauto].
  destruct (star_greedy p s k) eqn:E; [|eauto].
  intros [= ->]. by apply IH.
Qed.

Lemma star_lazy_sound {A} p (k : str -> option A) s x :
  star_lazy p s k = Some x -> exists s', k s' = Some x.
Proof.
  induction s as [|c s IH]; simpl.
  - destruct (k []) eqn:E; [intros [= ->]; eauto | discriminate].
  - destruct (k (c :: s)) eqn:E; [intros [= ->]; eauto|].
    destruct (p c); [apply IH | discriminate].
Qed.

(** Whatever a match returns was returned by its continuation, called with
    the groups of the pattern put in front of the groups it started with. *)
Lemma exec_sound {A} (r : regex) :
  forall s g (k : str -> groups -> option A) x,
    exec r s g k = Some x ->
    exists s' ext, k s' (ext ++ g) = Some x
                   /\ Forall (fun e => fst e ∈ group_ids r) ext.
Proof.
  induction r as [p| |r1 IH1 r2 IH2|r1 IH1 r2 IH2|r1 IH1|p|p|i r1 IH1|r1 IH1|];
    intros s g k x; simpl.
  - destruct s as [|c s]; [discriminate|]. destruct (p c); [|discriminate].
    intros H. exists s, []. by split.
  - intros H. exists s, []. by split.
  - intros H. apply IH1 in H as (s1 & e1 & H & F1).
    apply IH2 in H as (s2 & e2 & H & F2).
    exists s2, (e2 ++ e1). rewrite <- app_assoc. split; [done|].
    apply Forall_app; split; eapply Forall_impl; eauto; simpl; intros;
      set_solver.
  - destruct (exec r1 s g k) eqn:E.
    + intros [= ->]. apply IH1 in E as (s1 & e1 & H & F1).
      exists s1, e1. split; [done|]. eapply Forall_impl; eauto; simpl; intros; set_solver.
    + intros H. apply IH2 in H as (s1 & e1 & H & F1).
      exists s1, e1. split; [done|]. eapply Forall_impl; eauto; simpl; intros; set_solver.
  - destruct (exec r1 s g k) eqn:E.
    + intros [= ->]. by apply IH1 in E.
    + intros H. exists s, []. by split.
  - intros H. apply star_greedy_sound in H as [s' H]. exists s', []. by split.
  - intros H. apply star_lazy_sound in H as [s' H]. exists s', []. by split.
  - intros H. apply IH1 in H as (s1 & e1 & H & F1).
    exists s1, ((i, take (length s - length s1) s) :: e1). split; [done|].
    constructor; [set_solver|]. eapply Forall_impl; eauto; simpl; intros; set_solver.
  - destruct (exec r1 s g (fun _ _ => Some ())); [|discriminate].
    intros H. exists s, []. by split.
  - destruct s; [|discriminate]. intros H. exists [], []. by split.
Qed.

Lemma group_ext i (ext g : groups) :
  Forall (fun e => fst e <> i) ext -> group i (ext ++ g) = group i g.
Proof.
  induction 1 as [|[j t] ext Hj _ IH]; simpl; [done|].
  destruct (Nat.eqb_spec i j); [by subst|done].
Qed.

Lemma star_greedy_total {A} p (k : str -> option A) s :
  (forall s', is_Some (k s')) -> is_Some (star_greedy p s k).
Proof.
  intros Hk. induction s as [|c s IH]; simpl; [done|].
  destruct (p c); [|done]. destruct IH as [x ->]. eauto.
Qed.

(** Under [re.S] a lazy [.*?] in front of a continuation that accepts the
    end of the text always finds a match. *)
Lemma star_lazy_any_total {A} (k : str -> option A) s :
  is_Some (k []) -> is_Some (star_lazy any_char s k).
Proof.
  intros Hk. induction s as [|c s IH]; simpl.
  - destruct Hk as [x ->]. eauto.
  - destruct (k (c :: s)); eauto.
Qed.

Lemma findall_from_Forall (P : groups -> Prop) r :
  (forall s len g, match_at r s = Some (len, g) -> P g) ->
  forall s skip, Forall P (findall_from r skip s).
Proof.
  intros H. induction s as [|c s IH]; intros [|n]; simpl; auto.
  - destruct (match_at r []) as [[len g]|] eqn:E; eauto.
  - destruct (match_at r (c :: s)) as [[len g]|] eqn:E; eauto.
Qed.

(** ** The explicit marker pattern of [app.py] *)

Lemma exec_sound_no_group {A} (r : regex) s g (k : str -> groups -> option A) x :
  group_ids r = [] -> exec r s g k = Some x -> exists s', k s' g = Some x.
Proof.
  intros Hr H. apply exec_sound in H as (s' & ext & H & F). rewrite Hr in F.
  destruct ext as [|e ext]; [eauto|].
  apply Forall_cons in F as [F _]. by apply elem_of_nil in F.
Qed.

Lemma star_lazy_first {A} p (k : str -> option A) s :
  is_Some (k s) -> star_lazy p s k = k s.
Proof. intros [x Hx]. destruct s; simpl; by rewrite Hx. Qed.

Lemma exec_Seq {A} r1 r2 s g (k : str -> groups -> option A) :
  exec (Seq r1 r2) s g k = exec r1 s g (fun s' g' => exec r2 s' g' k).
Proof. reflexivity. Qed.

Lemma exec_Group_StarL {A} i p s g (k : str -> groups -> option A) :
  exec (Group i (StarL p)) s g k
  = star_lazy p s (fun s' => k s' ((i, take (length s - length s') s) :: g)).
Proof. reflexivity. Qed.

(** What follows the first group matches at every place of every text. *)
Lemma app_qna_rest_total {A} (f : str -> groups -> A) s g :
  is_Some (exec app.re_qna_rest s g (fun s' g' => Some (f s' g'))).
Proof.
  unfold app.re_qna_rest. cbn [seq_of exec].
  match goal with |- is_Some (match ?e with _ => _ end) => destruct e end; [done|].
  apply star_greedy_total. intros s'.
  apply star_lazy_any_total. cbn. done.
Qed.

(** So the lazy first group never takes a character: it is empty in
    every match. *)
Lemma app_qna_group1_empty s len g :
  match_at app.re_qna s = Some (len, g) -> group 1 g = [].
Proof.
  unfold match_at, app.re_qna. cbn [seq_of]. intros H.
  do 4 (rewrite exec_Seq in H;
        apply exec_sound_no_group in H as [? H]; [|done]; cbv beta in H).
  rewrite exec_Seq, exec_Group_StarL in H.
  rewrite star_lazy_first in H by apply app_qna_rest_total.
  apply exec_sound in H as (s5 & ext & H & F).
  injection H as _ <-.
  rewrite group_ext.
  - simpl. by rewrite Nat.sub_diag.
  - eapply Forall_impl; [exact F|]. intros [i t] Hi. cbn in Hi |- *. intros ->.
    apply list_elem_of_singleton in Hi. discriminate.
Qed.

(** Strategy 1 of [app.py] therefore never adds a pair. *)
Lemma app_explicit_qna_adds_nothing text faqs : app.explicit_qna text faqs = faqs.
Proof.
  unfold app.explicit_qna, findall.
  pose proof (findall_from_Forall (fun g => group 1 g = []) app.re_qna
                app_qna_group1_empty text 0%nat) as F.
  revert faqs. induction F as [|g gs Hg _ IH]; intros faqs; simpl; [done|].
  rewrite Hg. simpl. apply IH.
Qed.

(** C5 (the code at the input of the claim): on the text of the example
    the explicit marker pattern of [app.py] gives an empty question in both
    matches, so [extract_faqs_from_html] returns no pair at all. *)
Theorem C5_app_example_yields_nothing :
  map (fun g => (group 1 g, group 2 g)) (findall app.re_qna sample)
    = [([], lines ["What?"; "A: This."]%string);
       ([], lines ["Why?"; "A: Because."]%string)]
  /\ app.extract_faqs_from_soup [Text sample] = [].
Proof. split; vm_compute; reflexivity. Qed.

(** On the same text [extract_faq] of [model.py] finds the two pairs. *)
Lemma C5_model_example_yields_both :
  model.extract_faq_from_soup ascii_lower [Text sample]
    = [{| model.Q := lit "What?"; model.A := lit "This." |};
       {| model.Q := lit "Why?"; model.A := lit "Because." |}].
Proof. vm_compute. reflexivity. Qed.

(** ** The fetch cascade *)

Lemma raise_for_status_cases r :
  raise_for_status r = Returned tt \/ raise_for_status r = Raised (HTTPError (status_code r)).
Proof. unfold raise_for_status. case_match; auto. Qed.

Lemma no_raise_ret {R A} (a : A) : no_raise (@ret R A a).
Proof. exact I. Qed.

Lemma no_raise_return {R A} (r : R) : no_raise (@return_ R A r).
Proof. exact I. Qed.

Lemma no_raise_say {R} m : no_raise (@say R m).
Proof. exact I. Qed.

Lemma no_raise_bind {R A B} (m : M R A) (f : A -> M R B) :
  no_raise m -> (forall a, no_raise (f a)) -> no_raise (bind m f).
Proof.
  destruct m as [[a|r|e] l]; unfold no_raise; simpl; try done.
  intros _ Hf. specialize (Hf a). by destruct (f a) as [[] ?].
Qed.

(** [except Exception] with a handler that does not raise contains every
    exception of the body. *)
Lemma no_raise_try {R A} (body : M R A) handler :
  (forall e, no_raise (handler e)) -> no_raise (try_except body handler).
Proof.
  destruct body as [[a|r|e] l]; unfold no_raise; simpl; try done.
  intros Hh. specialize (Hh e). by destruct (handler e) as [[] ?].
Qed.

Lemma run_no_raise {R} (body : M R R) :
  no_raise body -> exists r l, run body = (Returned r, l).
Proof. destruct body as [[a|r|e] l]; unfold no_raise; simpl; by eauto. Qed.

Ltac solve_no_raise :=
  repeat first
    [ apply no_raise_ret | apply no_raise_return | apply no_raise_say
    | apply no_raise_try; intros
    | apply no_raise_bind; [|intros]
    | case_match ].

Lemma app_fetch_never_raises html_parser w url :
  exists faqs log, app.fetch_and_extract_all html_parser w url = (Returned faqs, log).
Proof. apply run_no_raise. solve_no_raise. Qed.

Lemma app_fetch_after_tier1_failure html_parser w url e :
  app_tier1_fails html_parser w url e ->
  app.fetch_and_extract_all html_parser w url
  = (Returned (fst (later_tiers html_parser w url)),
     st_error "[!] Requests failed: " e ". Attempting fallback..."
     :: snd (later_tiers html_parser w url)).
Proof.
  unfold app.fetch_and_extract_all, app.get_page_source_selenium, later_tiers, browser_tier,
    tier_pairs, app.extract_faqs_from_html.
  set (ex := app.extract_faqs_from_soup).
  intros [[H | (r & H & Hr)] | (r & H & Hr & Hp)]; rewrite H; cbn;
    [ | rewrite Hr; cbn | rewrite Hr; cbn; rewrite Hp; cbn ];
    (destruct (html_session w) as [render|]; cbn;
     [ destruct (render url) as [h|e2]; cbn;
       [ destruct (html_parser h) as [d|e2]; cbn;
         [destruct (truthy (ex d)) eqn:T2; cbn; [reflexivity|] |] |] | ]);
    rewrite ?T2; cbn;
    (destruct (chrome w url) as [h3|e3]; cbn;
     [destruct (html_parser h3) as [d3|e3]; cbn|]; rewrite ?T2; reflexivity).
Qed.

Lemma model_fetch_html_never_raises str_lower w url :
  exists html log, model.fetch_html str_lower w url = (Returned html, log).
Proof. apply run_no_raise. solve_no_raise. Qed.

(** [extract_faq] of [model.py] after [fetch_html]: no pair for an empty
    page; otherwise what the parser does with the page, its exception
    included, since the call of the parser is in no [try]. *)
Lemma model_extract_cases str_lower html_parser w url :
  exists html log,
    model.fetch_html str_lower w url = (Returned html, log)
    /\ model.extract_faq str_lower html_parser w url
       = if truthy html then
           match html_parser html with
           | Returned d => (Returned (model.extract_faq_from_soup str_lower d), log)
           | Raised e => (Raised e, log)
           end
         else (Returned [], log).
Proof.
  destruct (model_fetch_html_never_raises str_lower w url) as (html & log & E).
  exists html, log. split; [exact E|].
  unfold model.extract_faq. rewrite E. cbn.
  destruct (truthy html); cbn; [|by rewrite app_nil_r].
  destruct (html_parser html); cbn; by rewrite app_nil_r.
Qed.

Lemma model_fetch_after_tier1_failure str_lower w url e :
  tier1_fails w url 15 e ->
  model.fetch_html str_lower w url
  = match html_session w with
    | Some render =>
        match render url with
        | Returned html => (Returned html, [st_error "[!] Requests failed: " e ""])
        | Raised e2 =>
            (Returned [], [st_error "[!] Requests failed: " e "";
                           st_error "[!] JS rendering failed: " e2 ""])
        end
    | None => (Returned [], [st_error "[!] Requests failed: " e ""])
    end.
Proof.
  unfold model.fetch_html.
  intros [H | (r & H & Hr)]; rewrite H; cbn; [|rewrite Hr; cbn];
    (destruct (html_session w) as [render|]; cbn; [|reflexivity]);
    rewrite orb_true_r; destruct (render url); reflexivity.
Qed.

(** C2 (as stated, fails): a response with status 300, which is not a 2xx
    status, is no failure for [raise_for_status]; [app.py] returns the pairs
    of its body and goes to no other tier.  And [model.py] has no browser
    tier: with tier 1 down and no [requests_html] it returns nothing, where
    [app.py] gets the pairs through Chrome. *)
Lemma C2_status_300_and_missing_tier :
  app.fetch_and_extract_all sample_parser w_status_300 url1
    = (Returned [why_because], [])
  /\ model.extract_faq ascii_lower sample_parser w_only_chrome url1
    = (Returned [], [st_error "[!] Requests failed: " (Exception (lit "timed out")) ""])
  /\ app.fetch_and_extract_all sample_parser w_only_chrome url1
    = (Returned [why_because],
       [st_error "[!] Requests failed: " (Exception (lit "timed out"))
          ". Attempting fallback...";
        st_info "Falling back to Selenium for full browser automation..."]).
Proof. repeat split; vm_compute; reflexivity. Qed.

(** On a page that the parser rejects, [app.py] reports the parser's
    exception as the failure of tier 1 and goes on to the browser, while
    [extract_faq] of [model.py], which calls the parser outside every
    [try], raises it. *)
Lemma rejected_markup_at_tier1 :
  app.fetch_and_extract_all sample_parser w_rejected url1
    = (Returned [why_because],
       [st_error "[!] Requests failed: " (Exception (lit "ParserRejectedMarkup"))
          ". Attempting fallback...";
        st_info "Falling back to Selenium for full browser automation..."])
  /\ model.extract_faq ascii_lower sample_parser w_rejected url1
    = (Raised (Exception (lit "ParserRejectedMarkup")), []).
Proof. split; vm_compute; reflexivity. Qed.

(** C2 (amended): [fetch_and_extract_all] of [app.py] never raises, for
    any URL, any behaviour of the network and of the parser, and neither
    does [fetch_html] of [model.py]; [extract_faq] of [model.py] returns no
    pair when the page fetched is empty and the pairs of the page when the
    parser accepts it.  When tier 1 of [app.py] fails, that is
    [requests.get] raises, or the status is one for which
    [raise_for_status] raises (4xx, 5xx), or the parser rejects the body,
    [app.py] reports the error and goes on to the scripted render if it is
    available and then, unless the render gave pairs, to the full browser;
    it returns what these tiers give, and no pair when each of them fails.
    [model.py] has the first two tiers only: after a failure of tier 1
    [fetch_html] returns the rendered page, or the empty text. *)
Theorem C2_fetch_errors_contained html_parser str_lower w url :
  (exists faqs log, app.fetch_and_extract_all html_parser w url = (Returned faqs, log))
  /\ (exists html log,
        model.fetch_html str_lower w url = (Returned html, log)
        /\ (truthy html = false ->
            model.extract_faq str_lower html_parser w url = (Returned [], log))
        /\ (forall d, truthy html = true -> html_parser html = Returned d ->
            model.extract_faq str_lower html_parser w url
            = (Returned (model.extract_faq_from_soup str_lower d), log)))
  /\ (forall e, app_tier1_fails html_parser w url e ->
        app.fetch_and_extract_all html_parser w url
        = (Returned (fst (later_tiers html_parser w url)),
           st_error "[!] Requests failed: " e ". Attempting fallback..."
           :: snd (later_tiers html_parser w url)))
  /\ (forall e e3, app_tier1_fails html_parser w url e ->
        (forall render, html_session w = Some render ->
           exists e2, tier_pairs html_parser (render url) = Raised e2) ->
        tier_pairs html_parser (chrome w url) = Raised e3 ->
        fst (app.fetch_and_extract_all html_parser w url) = Returned [])
  /\ (forall e, tier1_fails w url 15 e ->
        model.fetch_html str_lower w url
        = match html_session w with
          | Some render =>
              match render url with
              | Returned html => (Returned html, [st_error "[!] Requests failed: " e ""])
              | Raised e2 =>
                  (Returned [], [st_error "[!] Requests failed: " e "";
                                 st_error "[!] JS rendering failed: " e2 ""])
              end
          | None => (Returned [], [st_error "[!] Requests failed: " e ""])
          end).
Proof.
  split; [apply app_fetch_never_raises|].
  split.
  { destruct (model_extract_cases str_lower html_parser w url) as (html & log & E & X).
    exists html, log. split; [exact E|]. split.
    - intros T. by rewrite X, T.
    - intros d T P. by rewrite X, T, P. }
  split; [apply app_fetch_after_tier1_failure|].
  split; [|apply model_fetch_after_tier1_failure].
  intros e e3 H1 H2 H3. rewrite (app_fetch_after_tier1_failure _ _ _ _ H1). simpl.
  unfold later_tiers, browser_tier. rewrite H3.
  destruct (html_session w) as [render|]; [|reflexivity].
  destruct (H2 render eq_refl) as [e2 ->]. reflexivity.
Qed.

(** With every tier down [app.py] returns no pair; with tier 1 down and
    no [requests_html] it gets the pair through Chrome; [model.py] with
    both of its tiers down returns the empty text. *)
Lemma C2_fetch_errors_contained_witness :
  app_tier1_fails sample_parser w_all_down url1 (Exception (lit "timed out"))
  /\ fst (app.fetch_and_extract_all sample_parser w_all_down url1) = Returned []
  /\ app.fetch_and_extract_all sample_parser w_only_chrome url1
     = (Returned [why_because],
        [st_error "[!] Requests failed: " (Exception (lit "timed out"))
           ". Attempting fallback...";
         st_info "Falling back to Selenium for full browser automation..."])
  /\ model.fetch_html ascii_lower w_all_down url1
     = (Returned [], [st_error "[!] Requests failed: " (Exception (lit "timed out")) "";
                      st_error "[!] JS rendering failed: " (Exception (lit "render failed")) ""]).
Proof.
  assert (H : forall w, requests_get w = (fun _ _ => Raised (Exception (lit "timed out"))) ->
                        forall t, tier1_fails w url1 t (Exception (lit "timed out"))).
  { intros w Hw t. left. rewrite Hw. reflexivity. }
  split; [left; apply (H w_all_down eq_refl)|].
  split.
  - apply (proj1 (proj2 (proj2 (proj2
             (C2_fetch_errors_contained sample_parser ascii_lower w_all_down url1))))
             (Exception (lit "timed out")) (Exception (lit "no chrome"))).
    + left. apply (H w_all_down eq_refl).
    + intros render [= <-]. eexists; reflexivity.
    + reflexivity.
  - split.
    + apply (proj1 (proj2 (proj2
               (C2_fetch_errors_contained sample_parser ascii_lower w_only_chrome url1)))
               (Exception (lit "timed out"))).
      left. apply (H w_only_chrome eq_refl).
    + apply (proj2 (proj2 (proj2 (proj2
               (C2_fetch_errors_contained sample_parser ascii_lower w_all_down url1))))
               (Exception (lit "timed out"))).
      apply (H w_all_down eq_refl).
Defined.

(** ** The store *)

Lemma str_eqb_refl a : str_eqb a a = true.
Proof. unfold str_eqb. by apply bool_decide_eq_true_2. Qed.

Lemma str_eqb_true a b : str_eqb a b = true -> a = b.
Proof. unfold str_eqb. apply bool_decide_eq_true_1. Qed.

Lemma str_eqb_ne a b : a <> b -> str_eqb a b = false.
Proof. unfold str_eqb. apply bool_decide_eq_false_2. Qed.

Lemma dict_get_set_eq k v d : dict_get k (dict_set k v d) = Some v.
Proof.
  induction d as [|[k' v'] d IH]; simpl.
  - by rewrite str_eqb_refl.
  - destruct (str_eqb k k') eqn:E; simpl; by rewrite E.
Qed.

Lemma dict_get_set_ne k k' v d : k <> k' -> dict_get k (dict_set k' v d) = dict_get k d.
Proof.
  intros Hne. induction d as [|[k0 v0] d IH]; simpl.
  - by rewrite str_eqb_ne.
  - destruct (str_eqb k' k0) eqn:E; simpl.
    + apply str_eqb_true in E. subst k0. by rewrite str_eqb_ne.
    + destruct (str_eqb k k0); [done|apply IH].
Qed.



(** C7 (the code at a failing input): [model.py] is run with no cache
    file and asked for [url1]; it extracts one pair, stores it under
    [url1] and writes the file.  The next request for [url1] is a new run
    of the script, which loads the store from that file: the loaded store
    has no entry for [url1] (the defect of the round trip), so the run
    extracts again, the page having changed in between, and the store then
    holds the second result under [url1], not the first. *)
Theorem C7_model_rerun_overwrites :
  let run1 := model.script_run ascii_lower sample_parser w_page url1 None in
  let s1 := session_after run1 model_start in
  let run2 := model.script_run ascii_lower sample_parser w_sample url1 (model.DATA_FILE s1) in
  let s2 := session_after run2 s1 in
  fst run1
    = Returned (s1, Some {| model.from_cache := false; model.shown := why_because_json |})
  /\ dict_get url1 (model.faq_store s1) = Some why_because_json
  /\ dict_in url1 (model.load_faq_store (model.DATA_FILE s1)) = false
  /\ fst run2
     = Returned (s2, Some {| model.from_cache := false; model.shown := both_pairs_json |})
  /\ dict_get url1 (model.faq_store s2) = Some both_pairs_json
  /\ both_pairs_json <> why_because_json.
Proof. repeat split; try (vm_compute; reflexivity). discriminate. Qed.

(** C10: in [app.py], when the pipeline returns no pair for a URL that is
    not in the store, the request leaves the store and the cache file as
    they were, and the next request for the URL runs the pipeline again:
    it shows what the pipeline then logs and returns, not a cached value. *)
Theorem C10_empty_result_not_cached html_parser w url s :
  truthy url = true ->
  dict_in url (app.faq_store s) = false ->
  fst (app.fetch_and_extract_all html_parser w url) = Returned [] ->
  fst (app.extract_button html_parser w url s)
    = Returned (s, Some {| app.from_cache := false; app.faqs := JArr [] |})
  /\ session_after (app.extract_button html_parser w url s) s = s
  /\ forall w2, exists faqs2 s2,
       fst (app.fetch_and_extract_all html_parser w2 url) = Returned faqs2
       /\ app.extract_button html_parser w2 url
            (session_after (app.extract_button html_parser w url s) s)
          = (Returned (s2, Some {| app.from_cache := false;
                                   app.faqs := JArr (map app.faq_to_json faqs2) |}),
             snd (app.fetch_and_extract_all html_parser w2 url)).
Proof.
  intros Ht Hin Hf.
  assert (E : fst (app.extract_button html_parser w url s)
              = Returned (s, Some {| app.from_cache := false; app.faqs := JArr [] |})).
  { unfold app.extract_button. rewrite Ht, Hin.
    destruct (app.fetch_and_extract_all html_parser w url) as [r log].
    simpl in Hf. subst r. reflexivity. }
  assert (E' : session_after (app.extract_button html_parser w url s) s = s).
  { unfold session_after. by rewrite E. }
  split; [exact E|]. split; [exact E'|].
  intros w2. rewrite E'.
  destruct (app_fetch_never_raises html_parser w2 url) as (faqs2 & log2 & Hw2).
  exists faqs2. unfold app.extract_button. rewrite Ht, Hin, Hw2. cbn.
  eexists. split; [reflexivity|]. rewrite app_nil_r. reflexivity.
Qed.

(** A page without any pair, asked for with an empty store and no file. *)
Lemma C10_empty_result_not_cached_witness :
  fst (app.extract_button sample_parser w_no_faqs url1 app_start)
    = Returned (app_start, Some {| app.from_cache := false; app.faqs := JArr [] |})
  /\ session_after (app.extract_button sample_parser w_no_faqs url1 app_start) app_start
     = app_start.
Proof.
  pose proof (C10_empty_result_not_cached sample_parser w_no_faqs url1 app_start
                eq_refl eq_refl eq_refl) as H.
  exact (conj (proj1 H) (proj1 (proj2 H))).
Defined.

(** The file [app.py] writes is read back as the store it was written
    from. *)
Lemma app_round_trip (faq_store : dict) u r :
  app.load_faq_cache (app.save_faq_cache faq_store) = faq_store
  /\ dict_get u (app.load_faq_cache (app.save_faq_cache (dict_set u r faq_store))) = Some r.
Proof. split; [reflexivity|]. apply dict_get_set_eq. Qed.

(** C3 (the code at a failing input): [model.py] starts with no file and
    gets one pair for [url1]; the store holds it, and the file written by
    [save_faq_store] is one document [{"url": .., "faqs": ..}], which a
    fresh start loads as a store with the keys ["url"] and ["faqs"]:
    looking up [url1] in it finds nothing.  With two entries the file holds
    two documents and loads as the empty store. *)
Theorem C3_model_round_trip_fails :
  let s1 := session_after (model.on_url ascii_lower sample_parser w_page url1 model_start)
              model_start in
  let s2 := session_after (model.on_url ascii_lower sample_parser w_page url2 s1) s1 in
  dict_get url1 (model.faq_store s1) = Some why_because_json
  /\ model.load_faq_store (model.DATA_FILE s1)
     = [(lit "url", JStr url1); (lit "faqs", why_because_json)]
  /\ dict_get url1 (model.load_faq_store (model.DATA_FILE s1)) = None
  /\ dict_get url2 (model.faq_store s2) = Some why_because_json
  /\ model.load_faq_store (model.DATA_FILE s2) = [].
Proof. repeat split; vm_compute; reflexivity. Qed.

(** ** Deduplication *)

Lemma fold_left_invariant {S X} (P : S -> Prop) (step : S -> X -> S) xs :
  (forall s x, P s -> P (step s x)) -> forall s, P s -> P (fold_left step xs s).
Proof. intros H. induction xs; simpl; auto. Qed.

Lemma deduplicated_add q a f :
  q ∉ model.seen_q f -> a ∉ model.seen_a f -> deduplicated f ->
  deduplicated {| model.faqs := model.faqs f ++ [{| model.Q := q; model.A := a |}];
                  model.seen_q := model.seen_q f ∪ {[q]};
                  model.seen_a := model.seen_a f ∪ {[a]} |}.
Proof.
  intros Hq Ha (Nq & Na & Hs). unfold deduplicated. simpl. rewrite !map_app. simpl.
  split; [|split].
  - apply NoDup_app. split; [done|]. split; [|apply NoDup_singleton].
    intros x Hx ->%list_elem_of_singleton.
    apply list_elem_of_fmap in Hx as (y & -> & Hy). by apply Hs in Hy as [? _].
  - apply NoDup_app. split; [done|]. split; [|apply NoDup_singleton].
    intros x Hx ->%list_elem_of_singleton.
    apply list_elem_of_fmap in Hx as (y & -> & Hy). by apply Hs in Hy as [_ ?].
  - intros x [Hx | ->%list_elem_of_singleton]%elem_of_app; simpl.
    + destruct (Hs x Hx) as [? ?]. split; apply elem_of_union; by left.
    + split; apply elem_of_union; right; by apply elem_of_singleton.
Qed.

Lemma deduplicated_accept q a f : deduplicated f -> deduplicated (model.accept q a f).
Proof.
  intros H. unfold model.accept.
  destruct (truthy q); simpl; [|done]. destruct (truthy a); simpl; [|done].
  case_bool_decide; simpl; [|done]. case_bool_decide; simpl; [|done].
  by apply deduplicated_add.
Qed.

Lemma deduplicated_mode_A d f : deduplicated f -> deduplicated (model.mode_A d f).
Proof.
  apply fold_left_invariant. intros g x. apply deduplicated_accept.
Qed.

Lemma deduplicated_mode_B d f : deduplicated f -> deduplicated (model.mode_B d f).
Proof.
  apply fold_left_invariant. intros g dt Hg.
  destruct (find_next_sibling_named "dd" dt); [by apply deduplicated_accept|done].
Qed.

Lemma deduplicated_mode_C d f : deduplicated f -> deduplicated (model.mode_C d f).
Proof.
  apply fold_left_invariant. intros g h Hg. cbv zeta.
  destruct (truthy (model.clean_text _)); simpl; [|done].
  case_bool_decide as Hq; simpl; [done|].
  destruct (truthy (join _ _)); simpl; [|done].
  case_bool_decide as Ha; simpl; [|done].
  by apply deduplicated_add.
Qed.

Lemma deduplicated_empty : deduplicated empty_found.
Proof.
  unfold deduplicated, empty_found. simpl.
  split; [apply NoDup_nil_2|]. split; [apply NoDup_nil_2|].
  intros x Hx. by apply elem_of_nil in Hx.
Qed.



(** Two occurrences of the marker pattern with the same answer: the first
    pair only is kept. *)
Lemma model_same_answer_kept_once :
  model.extract_faq_from_soup ascii_lower
    [Text (lines ["Q: What?"; "A: Because."; "Q: Why?"; "A: Because."]%string)]
  = [{| model.Q := lit "What?"; model.A := lit "Because." |}].
Proof. vm_compute. reflexivity. Qed.

(** The comparison is on the texts as they are returned.  Of two
    occurrences of the pattern with the same answer the first is not kept
    when its question is normalized to the empty string; and mode C keeps
    two answers that differ by a run of spaces only, which [clean_text]
    would make equal. *)
Lemma model_deduplicates_returned_texts :
  model.extract_faq_from_soup ascii_lower
    [Text (lines ["Q: [1]"; "A: x"; "Q: b"; "A: x"]%string)]
  = [{| model.Q := lit "b"; model.A := lit "x" |}]
  /\ model.extract_faq_from_soup ascii_lower doc_two_headings
     = [{| model.Q := lit "One?"; model.A := lit "a  b" |};
        {| model.Q := lit "Two?"; model.A := lit "a b" |}]
  /\ model.clean_text (lit "a  b") = lit "a b".
Proof. repeat split; vm_compute; reflexivity. Qed.

(** ** Pairs are filled on both sides *)

Lemma startswith_nonempty p s : p <> [] -> startswith p s = true -> s <> [].
Proof. destruct p, s; simpl; congruence. Qed.

Lemma endswith_nonempty p s : p <> [] -> endswith p s = true -> s <> [].
Proof.
  unfold endswith. intros Hp H ->. simpl in H.
  destruct (rev p) eqn:E; [|discriminate].
  apply (f_equal (@rev N)) in E. rewrite rev_involutive in E. by simpl in E.
Qed.

Lemma Forall_snoc {X} (P : X -> Prop) l x : Forall P l -> P x -> Forall P (l ++ [x]).
Proof. intros. apply Forall_app. split; [done|]. by constructor. Qed.

Lemma app_dt_dd_filled d faqs : Forall app_filled faqs -> Forall app_filled (app.dt_dd d faqs).
Proof.
  apply fold_left_invariant. intros acc [dt dd] Hacc. cbv beta iota zeta.
  destruct (truthy (get_text [] true (el_node dt))) eqn:Hq; simpl; [|done].
  destruct (truthy (get_text [] true (el_node dd))) eqn:Ha; simpl; [|done].
  apply Forall_snoc; [done|]. split; simpl; by apply truthy_true.
Qed.

Lemma app_heading_paragraph_filled d faqs :
  Forall app_filled faqs -> Forall app_filled (app.heading_paragraph d faqs).
Proof.
  apply fold_left_invariant. intros acc h Hacc. cbv beta iota zeta.
  destruct (find_next_sibling h) as [next_tag|]; [|done].
  destruct (name_in _ (node_name next_tag)); [|done]. cbv zeta.
  destruct (endswith (lit "?") _) eqn:Hq; simpl; [|done].
  destruct (truthy _) eqn:Ha; simpl; [|done].
  apply Forall_snoc; [done|]. split; simpl.
  - by eapply endswith_nonempty; [|exact Hq].
  - by apply truthy_true.
Qed.

Lemma app_question_answer_lists_filled texts :
  Forall (fun t => t <> []) (fst (app.question_answer_lists texts))
  /\ Forall (fun t => t <> []) (snd (app.question_answer_lists texts)).
Proof.
  unfold app.question_answer_lists.
  apply (fold_left_invariant
           (fun qa : list str * list str =>
              Forall (fun t => t <> []) (fst qa) /\ Forall (fun t => t <> []) (snd qa)));
    [|by split].
  intros [qs ans] i [Hq Ha]. cbv zeta.
  destruct (startswith (lit "Q") (texts !!! i) || endswith (lit "?") (texts !!! i)) eqn:E1;
    destruct (startswith (lit "A") (texts !!! (i + 1)%nat)) eqn:E2;
    cbn [andb fst snd] in *; try by split.
  split; apply Forall_snoc; try done.
  - apply orb_true_iff in E1 as [E1|E1].
    + by eapply startswith_nonempty; [|exact E1].
    + by eapply endswith_nonempty; [|exact E1].
  - by eapply startswith_nonempty; [|exact E2].
Qed.

Lemma app_broad_search_filled d faqs :
  Forall app_filled faqs -> Forall app_filled (app.broad_search d faqs).
Proof.
  intros Hf. unfold app.broad_search. cbv zeta.
  pose proof (app_question_answer_lists_filled
                (map (fun t => get_text [SP] true (el_node t))
                   (find_all (name_in ["p"; "div"; "li"; "span"; "h2"; "h3"; "h4"; "strong"; "b"]%string) d)))
    as [Hq Ha].
  destruct (app.question_answer_lists _) as [qs ans]. simpl in Hq, Ha.
  revert faqs Hf ans Ha. induction Hq as [|q qs Hq0 Hqs IH]; intros faqs Hf ans Ha; [done|].
  destruct Ha as [|a ans Ha0 Ha]; [done|]. simpl. apply IH; [|done].
  apply Forall_snoc; [done|]. by split.
Qed.

Lemma model_filled_accept q a f :
  Forall model_filled (model.faqs f) -> Forall model_filled (model.faqs (model.accept q a f)).
Proof.
  intros H. unfold model.accept.
  destruct (truthy q) eqn:Hq; simpl; [|done]. destruct (truthy a) eqn:Ha; simpl; [|done].
  repeat (case_bool_decide; simpl; [|done]).
  apply Forall_snoc; [done|]. split; simpl; by apply truthy_true.
Qed.

(** ** Substitution *)

Lemma sub_from_drop r repl n s :
  (n <= length s)%nat -> sub_from r repl n s = sub_from r repl 0 (drop n s).
Proof.
  revert s. induction n as [|n IH]; intros s Hn; [by rewrite drop_0|].
  destruct s as [|c s]; simpl in *; [lia|]. apply IH. lia.
Qed.

Lemma sub_nil_no_match r repl : match_at r [] = None -> sub r repl [] = [].
Proof. unfold sub. simpl. by intros ->. Qed.

Lemma sub_cons_no_match r repl c s :
  match_at r (c :: s) = None -> sub r repl (c :: s) = c :: sub r repl s.
Proof. unfold sub. simpl. by intros ->. Qed.

Lemma sub_cons_match r repl c s n g :
  match_at r (c :: s) = Some (S n, g) -> (n <= length s)%nat ->
  sub r repl (c :: s) = repl ++ sub r repl (drop n s).
Proof.
  unfold sub. intros H Hn. cbn [sub_from]. rewrite H. by rewrite sub_from_drop.
Qed.

(** A pattern that matches at no suffix of a text leaves the text as it
    is. *)
Lemma sub_no_match (Q : str -> Prop) r repl :
  (forall c s, Q (c :: s) -> Q s) ->
  (forall s, Q s -> match_at r s = None) ->
  forall s, Q s -> sub r repl s = s.
Proof.
  intros Htl Hno. induction s as [|c s IH]; intros HQ.
  - apply sub_nil_no_match. by apply Hno.
  - rewrite sub_cons_no_match by by apply Hno. f_equal. apply IH. by eapply Htl.
Qed.

Lemma match_at_Chr p s :
  match_at (Chr p) s
  = match s with
    | c :: _ => if p c then Some (1%nat, []) else None
    | [] => None
    end.
Proof.
  unfold match_at. destruct s as [|c s]; simpl; [done|].
  destruct (p c); [|done]. do 2 f_equal. lia.
Qed.

(** Removing the characters of a class. *)
Lemma sub_Chr_remove p s : sub (Chr p) [] s = filter (fun c => p c = false) s.
Proof.
  induction s as [|c s IH].
  - apply sub_nil_no_match. by rewrite match_at_Chr.
  - rewrite filter_cons. case_decide as E.
    + rewrite sub_cons_no_match by by rewrite match_at_Chr, E. by rewrite IH.
    + apply not_false_is_true in E.
      rewrite (sub_cons_match _ _ _ _ 0%nat []); [|by rewrite match_at_Chr, E|simpl; lia].
      by rewrite drop_0.
Qed.

(** Replacing the characters of a class by one character. *)
Lemma sub_Chr_replace p x s :
  sub (Chr p) [x] s = map (fun c => if p c then x else c) s.
Proof.
  induction s as [|c s IH].
  - apply sub_nil_no_match. by rewrite match_at_Chr.
  - simpl. destruct (p c) eqn:E.
    + rewrite (sub_cons_match _ _ _ _ 0%nat []); [|by rewrite match_at_Chr, E|simpl; lia].
      rewrite drop_0. simpl. by rewrite IH.
    + rewrite sub_cons_no_match by by rewrite match_at_Chr, E. by rewrite IH.
Qed.

Lemma span_len_le p s : (span_len p s <= length s)%nat.
Proof. induction s as [|c s IH]; simpl; [lia|]. destruct (p c); simpl; lia. Qed.

Lemma lstrip_drop s : lstrip s = drop (span_len is_space s) s.
Proof. induction s as [|c s IH]; simpl; [done|]. by destruct (is_space c). Qed.

(** A greedy run in front of a continuation that accepts everywhere, or
    that refuses every character of the class, ends where the run ends. *)
Lemma star_greedy_run {A} p (k : str -> option A) s :
  (forall c s', p c = true -> k (c :: s') = None \/ forall t, is_Some (k t)) ->
  star_greedy p s k = k (drop (span_len p s) s).
Proof.
  intros Hk. induction s as [|c s IH]; simpl; [done|].
  destruct (p c) eqn:E; [|done]. simpl. rewrite IH.
  destruct (k (drop (span_len p s) s)) eqn:Ek; [done|].
  destruct (Hk c s E) as [H|H]; [done|].
  destruct (H (drop (span_len p s) s)) as [x Hx]. congruence.
Qed.

Lemma match_at_PlusG p s :
  match_at (PlusG p) s
  = match s with
    | c :: s' => if p c then Some (S (span_len p s'), []) else None
    | [] => None
    end.
Proof.
  unfold match_at, PlusG. destruct s as [|c s]; [done|]. cbn [exec].
  destruct (p c); [|done].
  rewrite star_greedy_run by (intros; right; intros; eauto).
  do 2 f_equal. rewrite length_drop. pose proof (span_len_le p s). simpl. lia.
Qed.

(** [re.sub(r"\s+", " ", text)], one step at a time. *)
Lemma sub_spaces_nil : sub (PlusG is_space) [SP] [] = [].
Proof. apply sub_nil_no_match. by rewrite match_at_PlusG. Qed.

Lemma sub_spaces_cons c s :
  sub (PlusG is_space) [SP] (c :: s)
  = if is_space c then SP :: sub (PlusG is_space) [SP] (lstrip s)
    else c :: sub (PlusG is_space) [SP] s.
Proof.
  destruct (is_space c) eqn:E.
  - rewrite (sub_cons_match _ _ _ _ (span_len is_space s) []).
    + by rewrite lstrip_drop.
    + by rewrite match_at_PlusG, E.
    + apply span_len_le.
  - apply sub_cons_no_match. by rewrite match_at_PlusG, E.
Qed.

Lemma lstrip_length s : (length (lstrip s) <= length s)%nat.
Proof. rewrite lstrip_drop, length_drop. lia. Qed.

(** Induction following [sub_spaces_cons]. *)
Lemma sub_spaces_ind (P : str -> str -> Prop) :
  P [] [] ->
  (forall c s, is_space c = true ->
     P (lstrip s) (sub (PlusG is_space) [SP] (lstrip s)) ->
     P (c :: s) (SP :: sub (PlusG is_space) [SP] (lstrip s))) ->
  (forall c s, is_space c = false ->
     P s (sub (PlusG is_space) [SP] s) ->
     P (c :: s) (c :: sub (PlusG is_space) [SP] s)) ->
  forall s, P s (sub (PlusG is_space) [SP] s).
Proof.
  intros H0 H1 H2 s.
  remember (length s) as n eqn:Hn. revert s Hn.
  induction n as [n IH] using lt_wf_ind. intros s Hn.
  destruct s as [|c s]; [by rewrite sub_spaces_nil|].
  rewrite sub_spaces_cons. destruct (is_space c) eqn:E.
  - apply H1; [done|]. eapply IH; [|reflexivity].
    pose proof (lstrip_length s). simpl in Hn. lia.
  - apply H2; [done|]. eapply IH; [|reflexivity]. simpl in Hn. lia.
Qed.

Lemma lstrip_starts_nonspace s : starts_nonspace (lstrip s).
Proof.
  induction s as [|c s IH]; simpl; [done|].
  destruct (is_space c) eqn:E; [done|]. simpl. exact E.
Qed.

Lemma lstrip_id s : starts_nonspace s -> lstrip s = s.
Proof. destruct s as [|c s]; simpl; [done|]. by intros ->. Qed.

Lemma sub_spaces_starts_nonspace s :
  starts_nonspace s -> starts_nonspace (sub (PlusG is_space) [SP] s).
Proof.
  destruct s as [|c s]; [by rewrite sub_spaces_nil|].
  simpl. intros E. rewrite sub_spaces_cons, E. simpl. exact E.
Qed.

Lemma is_space_SP : is_space SP = true.
Proof. reflexivity. Qed.

(** After the substitution white space is normalized. *)
Lemma sub_spaces_spaced s : spaced (sub (PlusG is_space) [SP] s).
Proof.
  apply (sub_spaces_ind (fun _ t => spaced t)); [done| |].
  - intros c s' _ IH. simpl. split; [|done]. intros _. split; [done|].
    apply sub_spaces_starts_nonspace, lstrip_starts_nonspace.
  - intros c s' E IH. simpl. split; [|done]. intros E'. congruence.
Qed.

(** It adds nothing but spaces. *)
Lemma sub_spaces_Forall (P : N -> Prop) s :
  P SP -> Forall P s -> Forall P (sub (PlusG is_space) [SP] s).
Proof.
  intros HSP.
  apply (sub_spaces_ind (fun s t => Forall P s -> Forall P t)); [done| |].
  - intros c s' _ IH [_ Hs]%Forall_cons. constructor; [done|]. apply IH.
    rewrite lstrip_drop. by apply Forall_drop.
  - intros c s' _ IH [Hc Hs]%Forall_cons. constructor; [done|]. by apply IH.
Qed.

(** A text with normalized white space is left as it is. *)
Lemma sub_spaces_id t : spaced t -> sub (PlusG is_space) [SP] t = t.
Proof.
  induction t as [|c t IH]; [intros _; apply sub_spaces_nil|].
  simpl. intros [Hc Ht]. rewrite sub_spaces_cons.
  destruct (is_space c) eqn:E.
  - destruct (Hc eq_refl) as [-> Hn]. rewrite (lstrip_id _ Hn). f_equal. by apply IH.
  - f_equal. by apply IH.
Qed.

(** ** [strip] *)

Lemma lstrip_Forall (P : N -> Prop) s : Forall P s -> Forall P (lstrip s).
Proof. rewrite lstrip_drop. apply Forall_drop. Qed.

Lemma rstrip_Forall (P : N -> Prop) s : Forall P s -> Forall P (rstrip s).
Proof.
  intros H. unfold rstrip. apply List.Forall_rev, lstrip_Forall. by apply List.Forall_rev.
Qed.

Lemma strip_Forall (P : N -> Prop) s : Forall P s -> Forall P (strip s).
Proof. intros H. by apply rstrip_Forall, lstrip_Forall. Qed.

Lemma rstrip_prefix s : exists post, s = rstrip s ++ post.
Proof.
  unfold rstrip. rewrite lstrip_drop.
  exists (rev (take (span_len is_space (rev s)) (rev s))).
  rewrite <- rev_app_distr, take_drop. by rewrite rev_involutive.
Qed.

Lemma spaced_drop n s : spaced s -> spaced (drop n s).
Proof.
  revert s. induction n as [|n IH]; intros [|c s]; simpl; try done.
  intros [_ H]. by apply IH.
Qed.

Lemma spaced_app_l a b : spaced (a ++ b) -> spaced a.
Proof.
  induction a as [|c a IH]; simpl; [done|].
  intros [Hc H]. split; [|by apply IH].
  intros E. destruct (Hc E) as [-> Hn]. split; [done|]. by destruct a.
Qed.

Lemma strip_spaced s : spaced s -> spaced (strip s).
Proof.
  intros H. unfold strip.
  destruct (rstrip_prefix (lstrip s)) as [post Hpost].
  apply (spaced_app_l _ post). rewrite <- Hpost, lstrip_drop. by apply spaced_drop.
Qed.

Lemma rstrip_starts_nonspace u : starts_nonspace u -> starts_nonspace (rstrip u).
Proof.
  destruct (rstrip_prefix u) as [post Hpost]. intros H. rewrite Hpost in H.
  by destruct (rstrip u).
Qed.

Lemma rstrip_rstrip u : rstrip (rstrip u) = rstrip u.
Proof.
  unfold rstrip. rewrite rev_involutive.
  by rewrite (lstrip_id (lstrip (rev u))) by apply lstrip_starts_nonspace.
Qed.

Lemma strip_strip s : strip (strip s) = strip s.
Proof.
  unfold strip.
  rewrite (lstrip_id (rstrip (lstrip s)))
    by apply rstrip_starts_nonspace, lstrip_starts_nonspace.
  apply rstrip_rstrip.
Qed.

(** ** The normalizers on texts without an opening bracket *)

Lemma plain_eqb c :
  plain c -> (c =? PILCROW) = false /\ (c =? A_CIRC) = false /\ (c =? LBRACK) = false.
Proof. intros (H1 & H2 & H3). by repeat split; apply N.eqb_neq. Qed.

Lemma Forall_plain_tail c s : Forall plain (c :: s) -> Forall plain s.
Proof. by intros [_ H]%Forall_cons. Qed.

Ltac no_match_plain :=
  let H := fresh in let a := fresh "a" in let b := fresh "b" in
  intros [|a [|b ?]] H; unfold match_at; cbn [seq_of exec]; try done;
  repeat match goal with
         | H : Forall plain (_ :: _) |- _ => apply Forall_cons in H as [?%plain_eqb ?]
         end;
  unfold is_char, one_of; simpl; intuition;
  repeat match goal with
         | H : (_ =? _) = false |- _ => rewrite H; clear H
         end; simpl; try done;
  repeat case_match; done.

Lemma app_symbols_no_match s : Forall plain s -> match_at app.re_symbols s = None.
Proof. revert s. unfold app.re_symbols. no_match_plain. Qed.

Lemma app_citation_no_match s : Forall plain s -> match_at app.re_citation s = None.
Proof. revert s. unfold app.re_citation. no_match_plain. Qed.

Lemma model_pilcrow_no_match s : Forall plain s -> match_at model.re_pilcrow s = None.
Proof. revert s. unfold model.re_pilcrow. no_match_plain. Qed.

Lemma model_a_circ_no_match s : Forall plain s -> match_at model.re_a_circ s = None.
Proof. revert s. unfold model.re_a_circ. no_match_plain. Qed.

Lemma model_citation_no_match s : Forall plain s -> match_at model.re_citation s = None.
Proof. revert s. unfold model.re_citation. no_match_plain. Qed.

Lemma model_bracketed_no_match s : Forall plain s -> match_at model.re_bracketed s = None.
Proof. revert s. unfold model.re_bracketed. no_match_plain. Qed.

Lemma spaced_tail c s : spaced (c :: s) -> spaced s.
Proof. by intros [_ H]. Qed.

(** White space is matched by [\s+] before [\xa0] is looked for: no
    non-breaking space is left for the next substitution. *)
Lemma nbsp_no_match s : spaced s -> match_at (Chr (is_char NBSP)) s = None.
Proof.
  rewrite match_at_Chr. destruct s as [|c s]; [done|]. simpl. intros [Hc _].
  unfold is_char. destruct (N.eqb_spec c NBSP) as [->|]; [|done].
  by destruct (Hc eq_refl).
Qed.

Lemma app_clean_text_normal_id t : normal t -> app.clean_text t = t.
Proof.
  intros (Hp & Hs & Ht). unfold app.clean_text. cbv zeta.
  rewrite (sub_no_match (Forall plain) app.re_symbols [] Forall_plain_tail
             app_symbols_no_match t Hp).
  rewrite (sub_no_match (Forall plain) app.re_citation [] Forall_plain_tail
             app_citation_no_match t Hp).
  unfold app.re_spaces. rewrite (sub_spaces_id t Hs).
  by rewrite (sub_no_match spaced app.re_nbsp [SP] spaced_tail nbsp_no_match t Hs).
Qed.

Lemma model_clean_text_normal_id t : normal t -> model.clean_text t = t.
Proof.
  intros (Hp & Hs & Ht). unfold model.clean_text. cbv zeta.
  rewrite (sub_no_match (Forall plain) model.re_pilcrow [] Forall_plain_tail
             model_pilcrow_no_match t Hp).
  rewrite (sub_no_match (Forall plain) model.re_a_circ [] Forall_plain_tail
             model_a_circ_no_match t Hp).
  rewrite (sub_no_match (Forall plain) model.re_citation [] Forall_plain_tail
             model_citation_no_match t Hp).
  unfold model.re_spaces. rewrite (sub_spaces_id t Hs).
  rewrite (sub_no_match spaced model.re_nbsp [SP] spaced_tail nbsp_no_match t Hs).
  by rewrite (sub_no_match (Forall plain) model.re_bracketed [SP] Forall_plain_tail
                model_bracketed_no_match t Hp).
Qed.

Lemma plain_SP : plain SP.
Proof. by repeat split. Qed.

(** Normalized white space, stripped, of plain characters. *)
Lemma normal_spaces_strip t :
  Forall plain t -> normal (strip (sub (PlusG is_space) [SP] t)).
Proof.
  intros Hp. split; [|split].
  - apply strip_Forall, sub_spaces_Forall; [apply plain_SP|done].
  - apply strip_spaced, sub_spaces_spaced.
  - apply strip_strip.
Qed.

Lemma app_clean_text_normal s : LBRACK ∉ s -> normal (app.clean_text s).
Proof.
  intros Hs. unfold app.clean_text. cbv zeta.
  unfold app.re_symbols. rewrite sub_Chr_remove.
  set (t1 := filter _ s).
  assert (Hp : Forall plain t1).
  { apply Forall_forall. intros c Hc. subst t1.
    apply list_elem_of_filter in Hc as [Hc Hin].
    unfold one_of in Hc. simpl in Hc. apply orb_false_iff in Hc as [H1 H2].
    apply orb_false_iff in H2 as [H2 _].
    repeat split; [by apply N.eqb_neq..|]. by intros ->. }
  rewrite (sub_no_match (Forall plain) app.re_citation [] Forall_plain_tail
             app_citation_no_match t1 Hp).
  unfold app.re_spaces.
  rewrite (sub_no_match spaced app.re_nbsp [SP] spaced_tail nbsp_no_match)
    by apply sub_spaces_spaced.
  by apply normal_spaces_strip.
Qed.

Lemma model_clean_text_normal s : LBRACK ∉ s -> normal (model.clean_text s).
Proof.
  intros Hs. unfold model.clean_text. cbv zeta.
  unfold model.re_pilcrow, model.re_a_circ. rewrite !sub_Chr_remove.
  set (t1 := filter _ (filter _ s)).
  assert (Hp : Forall plain t1).
  { apply Forall_forall. intros c Hc. subst t1.
    apply list_elem_of_filter in Hc as [Hc2 Hc].
    apply list_elem_of_filter in Hc as [Hc1 Hin].
    unfold is_char in Hc1, Hc2.
    repeat split; [by apply N.eqb_neq..|]. by intros ->. }
  rewrite (sub_no_match (Forall plain) model.re_citation [] Forall_plain_tail
             model_citation_no_match t1 Hp).
  unfold model.re_spaces.
  rewrite (sub_no_match spaced model.re_nbsp [SP] spaced_tail nbsp_no_match)
    by apply sub_spaces_spaced.
  rewrite (sub_no_match (Forall plain) model.re_bracketed [SP] Forall_plain_tail
             model_bracketed_no_match)
    by (apply sub_spaces_Forall; [apply plain_SP|done]).
  by apply normal_spaces_strip.
Qed.

(** C6 (as stated, fails): removing the inner marker of ["[[1]2]"] leaves the
    marker ["[2]"], which a second pass of [clean_text] of [app.py]
    removes. *)
Lemma C6_not_idempotent :
  app.clean_text (lit "[[1]2]") = lit "[2]"
  /\ app.clean_text (app.clean_text (lit "[[1]2]")) = []
  /\ app.clean_text (app.clean_text (lit "[[1]2]")) <> app.clean_text (lit "[[1]2]").
Proof. repeat split; vm_compute; (reflexivity || discriminate). Qed.

(** [clean_text] of [model.py] puts a space for ["[x]"] after it has
    collapsed the white space, so what it returns can hold a run of
    spaces, which a second pass collapses. *)
Lemma model_clean_text_leaves_spaces :
  model.clean_text (lit "a [x] b") = lit "a   b"
  /\ model.clean_text (model.clean_text (lit "a [x] b")) = lit "a b"
  /\ model.clean_text (model.clean_text (lit "a [x] b")) <> model.clean_text (lit "a [x] b").
Proof. repeat split; vm_compute; (reflexivity || discriminate). Qed.

(** X21: for every text without an opening bracket, applying [clean_text]
    twice gives what applying it once gives, in [app.py] and in
    [model.py]. *)
Theorem X21_clean_text_idempotent_without_brackets (s : str) :
  LBRACK ∉ s ->
  app.clean_text (app.clean_text s) = app.clean_text s
  /\ model.clean_text (model.clean_text s) = model.clean_text s.
Proof.
  intros Hs. split.
  - by apply app_clean_text_normal_id, app_clean_text_normal.
  - by apply model_clean_text_normal_id, model_clean_text_normal.
Qed.

(** A text with runs of spaces and parentheses, but no bracket. *)
Lemma X21_clean_text_idempotent_without_brackets_witness :
  app.clean_text (app.clean_text (lit "  see   the (1) note ")) = app.clean_text (lit "  see   the (1) note ")
  /\ model.clean_text (model.clean_text (lit "  see   the (1) note "))
     = model.clean_text (lit "  see   the (1) note ").
Proof.
  apply (X21_clean_text_idempotent_without_brackets (lit "  see   the (1) note ")).
  intros H. vm_compute in H. repeat (apply elem_of_cons in H as [H|H]; [discriminate|]).
  by apply elem_of_nil in H.
Defined.

(** ** Citation markers and bracketed spans *)

Lemma digit_not_rbrack c : is_digit c = true -> is_char RBRACK c = false.
Proof.
  unfold is_char. destruct (N.eqb_spec c RBRACK) as [->|]; [|done].
  vm_compute. discriminate.
Qed.

(** The pattern [\[\d+\]] matches at the front of a text exactly when a
    citation marker is there, and then all of it. *)
Lemma app_citation_match s :
  match_at app.re_citation s = option_map (fun n => (n, [])) (citation_marker s).
Proof.
  unfold match_at, app.re_citation, PlusG. cbn [seq_of].
  destruct s as [|c s1]; [done|]. cbn [exec citation_marker]. unfold is_char at 1.
  destruct (c =? LBRACK); [|done].
  destruct s1 as [|d s2]; [done|]. cbn [span_len]. destruct (is_digit d); [|done].
  rewrite star_greedy_run.
  - cbn [drop]. pose proof (span_len_le is_digit s2) as Hle.
    pose proof (length_drop s2 (span_len is_digit s2)) as Hlen.
    destruct (drop (span_len is_digit s2) s2) as [|e t']; [reflexivity|].
    unfold is_char. destruct (e =? RBRACK); [|reflexivity]. simpl in *.
    do 2 f_equal. lia.
  - intros c' s' Hc'. left. by rewrite (digit_not_rbrack c' Hc').
Qed.

Lemma citation_marker_pos s len : citation_marker s = Some len -> exists n, len = S n.
Proof.
  unfold citation_marker. repeat case_match; try done. intros [= <-]. eauto.
Qed.

Lemma app_citation_sub_from skip s :
  sub_from app.re_citation [] skip s = remove_citation_markers_from skip s.
Proof.
  revert skip. induction s as [|c s IH]; intros [|n].
  - cbn [sub_from]. by rewrite app_citation_match.
  - reflexivity.
  - cbn [sub_from remove_citation_markers_from]. rewrite app_citation_match.
    destruct (citation_marker (c :: s)) as [len|] eqn:E; cbn [option_map].
    + destruct (citation_marker_pos _ _ E) as [n ->]. simpl. apply IH.
    + simpl. f_equal. apply IH.
  - simpl. apply IH.
Qed.

Lemma app_citation_sub s : sub app.re_citation [] s = remove_citation_markers s.
Proof. apply app_citation_sub_from. Qed.

Lemma remove_citation_markers_none s : has_marker s = false -> remove_citation_markers s = s.
Proof.
  unfold remove_citation_markers.
  induction s as [|c s IH]; [done|]. cbn [has_marker remove_citation_markers_from].
  destruct (citation_marker (c :: s)); [done|]. simpl. intros H. f_equal. by apply IH.
Qed.

Lemma span_close_lt t k : span_close t = Some k -> (k < length t)%nat.
Proof.
  revert k. induction t as [|d t IH]; intros k; simpl; [done|].
  destruct (d =? RBRACK); [intros [= <-]; lia|].
  destruct (d =? NL); [done|].
  destruct (span_close t) as [k'|]; [|done]. intros [= <-].
  specialize (IH k' eq_refl). lia.
Qed.

(** A lazy run on the line in front of a closing bracket ends at the first
    closing bracket. *)
Lemma star_lazy_close {A} (F : str -> A) t :
  star_lazy not_newline t
    (fun s' => match s' with
               | e :: s'' => if is_char RBRACK e then Some (F s'') else None
               | [] => None
               end)
  = match span_close t with
    | Some k => Some (F (drop (S k) t))
    | None => None
    end.
Proof.
  induction t as [|d t IH]; [done|]. cbn [star_lazy span_close]. unfold is_char at 1.
  destruct (d =? RBRACK); [reflexivity|].
  unfold not_newline at 1. destruct (d =? NL); [done|]. cbn [negb].
  rewrite IH. by destruct (span_close t).
Qed.

(** The pattern [\[.*?\]] matches at the front of a text exactly when a
    bracketed span is there, and then all of it. *)
Lemma model_bracketed_match s :
  match_at model.re_bracketed s = option_map (fun n => (n, [])) (bracketed_span s).
Proof.
  unfold match_at, model.re_bracketed. cbn [seq_of].
  destruct s as [|c t]; [done|]. cbn [exec bracketed_span]. unfold is_char at 1.
  destruct (c =? LBRACK); [|done].
  rewrite (star_lazy_close (fun s'' => ((length (c :: t) - length s'')%nat, ([] : groups)))).
  destruct (span_close t) as [k|] eqn:E; [|done]. cbn [option_map].
  apply span_close_lt in E. rewrite length_drop. do 2 f_equal. simpl. lia.
Qed.





(** The markers go, the other bracketed text stays. *)
Lemma app_clean_text_example :
  app.clean_text (lit "Rust [note] is fast[12] and safe [3].")
  = lit "Rust [note] is fast and safe .".
Proof. vm_compute. reflexivity. Qed.

(** ** Further properties *)

(** X1: the loop over the explicit [Q:] / [A:] matches of [app.py] never
    adds a pair, whatever the text: the first group of its pattern is
    empty in every match, and the guard [q.strip()] refuses it. *)
Theorem X1_app_explicit_markers_never_yield (text : str) (faqs : list app.faq) :
  Forall (fun g => group 1 g = []) (findall app.re_qna text)
  /\ app.explicit_qna text faqs = faqs.
Proof.
  split; [|apply app_explicit_qna_adds_nothing].
  apply findall_from_Forall, app_qna_group1_empty.
Qed.

(** X2: what [clean_text] of [app.py] returns has its white space
    normalized: every white space character is a space, no two of them are
    adjacent, and none is at either end. *)
Theorem X2_app_clean_text_spaces (s : str) :
  spaced (app.clean_text s) /\ strip (app.clean_text s) = app.clean_text s.
Proof.
  unfold app.clean_text. cbv zeta. unfold app.re_spaces.
  rewrite (sub_no_match spaced app.re_nbsp [SP] spaced_tail nbsp_no_match)
    by apply sub_spaces_spaced.
  split; [apply strip_spaced, sub_spaces_spaced | apply strip_strip].
Qed.

(** ** Noise removal *)

(** Induction on a tree, with the property for the children of a tag. *)
Lemma node_induction (P : node -> Prop) :
  (forall s, P (Text s)) ->
  (forall s, P (Special s)) ->
  (forall nm i cl ch, Forall P ch -> P (Tag nm i cl ch)) ->
  forall n, P n.
Proof.
  intros HT HS HTag. fix IH 1. intros [s|s|nm i cl ch]; [apply HT|apply HS|].
  apply HTag. induction ch as [|c ch IHch]; constructor; [apply IH|apply IHch].
Qed.

Lemma existsb_flat_map_false {X Y} (f : Y -> bool) (g : X -> list Y) l :
  Forall (fun x => existsb f (g x) = false) l -> existsb f (flat_map g l) = false.
Proof.
  induction 1 as [|x l Hx _ IH]; simpl; [done|].
  rewrite existsb_app, Hx, IH. done.
Qed.

(** What a search took out is not found again. *)
Lemma decompose_in_clean p n : existsb (has_tag p) (decompose_in p n) = false.
Proof.
  induction n as [s|s|nm i cl ch IH] using node_induction; simpl; try done.
  destruct (p nm i cl) eqn:E; simpl; [done|]. rewrite E. simpl.
  rewrite orb_false_r. by apply existsb_flat_map_false.
Qed.

Lemma decompose_all_clean p d : soup_has_tag p (decompose_all p d) = false.
Proof.
  unfold soup_has_tag, decompose_all. apply existsb_flat_map_false.
  apply Forall_forall. intros n _. apply decompose_in_clean.
Qed.

Lemma flat_map_singleton {X} (g : X -> list X) l :
  Forall (fun x => g x = [x]) l -> flat_map g l = l.
Proof. induction 1 as [|x l Hx _ IH]; simpl; [done|]. by rewrite Hx, IH. Qed.

Lemma existsb_false_Forall {X} (f : X -> bool) l :
  existsb f l = false -> Forall (fun x => f x = false) l.
Proof.
  induction l as [|x l IH]; simpl; [constructor|].
  intros [H1 H2]%orb_false_iff. constructor; auto.
Qed.

(** A tree without a tag of the search is left as it is. *)
Lemma decompose_in_id p n : has_tag p n = false -> decompose_in p n = [n].
Proof.
  induction n as [s|s|nm i cl ch IH] using node_induction; simpl; try done.
  intros [E H]%orb_false_iff. rewrite E. do 2 f_equal.
  apply flat_map_singleton. apply existsb_false_Forall in H.
  clear E. induction IH as [|c ch Hc _ IHch]; [constructor|].
  apply Forall_cons in H as [H1 H2]. constructor; auto.
Qed.

Lemma decompose_all_id p d : soup_has_tag p d = false -> decompose_all p d = d.
Proof.
  unfold soup_has_tag, decompose_all. intros H. apply flat_map_singleton.
  apply existsb_false_Forall in H. eapply Forall_impl; [exact H|].
  intros n. apply decompose_in_id.
Qed.

(** A search takes out tags and adds none: what no tag of the tree
    satisfied, no tag of the result satisfies. *)
Lemma decompose_in_keeps_clean p q n :
  has_tag q n = false -> existsb (has_tag q) (decompose_in p n) = false.
Proof.
  induction n as [s|s|nm i cl ch IH] using node_induction; simpl;
    try (intros _; done).
  intros [E H]%orb_false_iff. destruct (p nm i cl); simpl; [done|].
  rewrite E. simpl. rewrite orb_false_r. apply existsb_flat_map_false.
  apply existsb_false_Forall in H.
  clear E. induction IH as [|c ch Hc _ IHch]; [constructor|].
  apply Forall_cons in H as [H1 H2]. constructor; auto.
Qed.

Lemma decompose_all_keeps_clean p q d :
  soup_has_tag q d = false -> soup_has_tag q (decompose_all p d) = false.
Proof.
  unfold soup_has_tag, decompose_all. intros H. apply existsb_flat_map_false.
  apply existsb_false_Forall in H. eapply Forall_impl; [exact H|].
  intros n. apply decompose_in_keeps_clean.
Qed.

Lemma list_sum_flat_map_le (g : node -> list node) l :
  Forall (fun n => (list_sum (map count_tags (g n)) <= count_tags n)%nat) l ->
  (list_sum (map count_tags (flat_map g l)) <= list_sum (map count_tags l))%nat.
Proof.
  induction 1 as [|x l Hx _ IH]; simpl; [lia|].
  rewrite map_app, list_sum_app. lia.
Qed.

Lemma decompose_in_count p n :
  (list_sum (map count_tags (decompose_in p n)) <= count_tags n)%nat.
Proof.
  induction n as [s|s|nm i cl ch IH] using node_induction; simpl; try lia.
  destruct (p nm i cl); simpl; [lia|].
  pose proof (list_sum_flat_map_le (decompose_in p) ch IH). lia.
Qed.

Lemma decompose_all_count p d : (soup_count_tags (decompose_all p d) <= soup_count_tags d)%nat.
Proof.
  unfold soup_count_tags, decompose_all. apply list_sum_flat_map_le.
  apply Forall_forall. intros n _. apply decompose_in_count.
Qed.

(** A search by name finds nothing in a tree without a tag of that name. *)
Lemma find_all_in_clean f n next :
  has_tag (fun nm _ _ => f nm) n = false -> find_all_in f n next = [].
Proof.
  revert next. induction n as [s|s|nm i cl ch IH] using node_induction;
    intros next; simpl; try done.
  intros [E H]%orb_false_iff. rewrite E. simpl.
  apply existsb_false_Forall in H. clear E.
  induction IH as [|c ch Hc _ IHch]; [done|].
  apply Forall_cons in H as [H1 H2]. rewrite (Hc _ H1). simpl. by apply IHch.
Qed.

Lemma find_all_clean f d :
  soup_has_tag (fun nm _ _ => f nm) d = false -> find_all f d = [].
Proof.
  unfold soup_has_tag. induction d as [|c d IH]; simpl; [done|].
  intros [H1 H2]%orb_false_iff. rewrite (find_all_in_clean _ _ _ H1). simpl. by apply IH.
Qed.

(** X3: what [remove_noisy_tags] of [app.py] returns holds no tag of the
    eleven names, so a search for one of them finds nothing; it has no
    more tags than the document had; and removing the noise again changes
    nothing. *)
Theorem X3_app_remove_noisy_tags (d : soup) :
  soup_has_tag (by_name app.noisy_tags) (app.remove_noisy_tags d) = false
  /\ find_all (name_in app.noisy_tags) (app.remove_noisy_tags d) = []
  /\ (soup_count_tags (app.remove_noisy_tags d) <= soup_count_tags d)%nat
  /\ app.remove_noisy_tags (app.remove_noisy_tags d) = app.remove_noisy_tags d.
Proof.
  assert (H : soup_has_tag (by_name app.noisy_tags) (app.remove_noisy_tags d) = false)
    by apply decompose_all_clean.
  split; [exact H|]. split; [by apply find_all_clean|].
  split; [apply decompose_all_count|]. by apply decompose_all_id.
Qed.

Lemma model_remove_noise_passes str_lower d :
  model.remove_noise str_lower d
  = fold_left (noise_pass str_lower) model.noisy
      (decompose_all (by_name model.noise_tags) d).
Proof. reflexivity. Qed.

Lemma noise_passes_keep_clean str_lower q l d :
  soup_has_tag q d = false ->
  soup_has_tag q (fold_left (noise_pass str_lower) l d) = false.
Proof.
  revert d. induction l as [|nid l IH]; intros d H; simpl; [done|].
  apply IH. unfold noise_pass. by do 2 apply decompose_all_keeps_clean.
Qed.

Lemma noise_passes_clean str_lower l d nid :
  nid ∈ l ->
  soup_has_tag (by_id str_lower nid) (fold_left (noise_pass str_lower) l d) = false
  /\ soup_has_tag (by_class str_lower nid) (fold_left (noise_pass str_lower) l d) = false.
Proof.
  revert d. induction l as [|x l IH]; intros d Hin; [by apply elem_of_nil in Hin|].
  apply elem_of_cons in Hin as [->|Hin]; [|by apply IH].
  simpl. split; apply noise_passes_keep_clean; unfold noise_pass.
  - apply decompose_all_keeps_clean, decompose_all_clean.
  - apply decompose_all_clean.
Qed.

Lemma noise_passes_id str_lower l d :
  (forall nid, nid ∈ l ->
     soup_has_tag (by_id str_lower nid) d = false
     /\ soup_has_tag (by_class str_lower nid) d = false) ->
  fold_left (noise_pass str_lower) l d = d.
Proof.
  induction l as [|x l IH]; intros H; simpl; [done|].
  destruct (H x) as [H1 H2]; [by left|].
  unfold noise_pass at 2. rewrite (decompose_all_id _ _ H1), (decompose_all_id _ _ H2).
  apply IH. intros nid Hin. apply H. by right.
Qed.

Lemma noise_passes_count str_lower l d :
  (soup_count_tags (fold_left (noise_pass str_lower) l d) <= soup_count_tags d)%nat.
Proof.
  revert d. induction l as [|x l IH]; intros d; simpl; [lia|].
  etransitivity; [apply IH|]. unfold noise_pass.
  etransitivity; apply decompose_all_count.
Qed.

(** X4: what [remove_noise] of [model.py] returns holds no tag of the
    sixteen names and no tag whose [id] or [class] carries one of the
    twelve markers; it has no more tags than the document had; and
    removing the noise again changes nothing. *)
Theorem X4_model_remove_noise (str_lower : str -> str) (d : soup) :
  soup_has_tag (by_name model.noise_tags) (model.remove_noise str_lower d) = false
  /\ (forall nid, nid ∈ model.noisy ->
        soup_has_tag (by_id str_lower nid) (model.remove_noise str_lower d) = false
        /\ soup_has_tag (by_class str_lower nid) (model.remove_noise str_lower d) = false)
  /\ (soup_count_tags (model.remove_noise str_lower d) <= soup_count_tags d)%nat
  /\ model.remove_noise str_lower (model.remove_noise str_lower d)
     = model.remove_noise str_lower d.
Proof.
  assert (H1 : soup_has_tag (by_name model.noise_tags) (model.remove_noise str_lower d) = false).
  { rewrite model_remove_noise_passes. apply noise_passes_keep_clean, decompose_all_clean. }
  assert (H2 : forall nid, nid ∈ model.noisy ->
        soup_has_tag (by_id str_lower nid) (model.remove_noise str_lower d) = false
        /\ soup_has_tag (by_class str_lower nid) (model.remove_noise str_lower d) = false).
  { intros nid Hin. rewrite model_remove_noise_passes. by apply noise_passes_clean. }
  split; [exact H1|]. split; [exact H2|]. split.
  - rewrite model_remove_noise_passes. etransitivity; [apply noise_passes_count|].
    apply decompose_all_count.
  - rewrite (model_remove_noise_passes str_lower (model.remove_noise str_lower d)).
    rewrite (decompose_all_id _ _ H1). by apply noise_passes_id.
Qed.

(** ** Documents without tags *)

Lemma tagless_clean p d : tagless d -> soup_has_tag p d = false.
Proof.
  unfold tagless, soup_has_tag. induction 1 as [|n d Hn _ IH]; simpl; [done|].
  rewrite IH. by destruct n.
Qed.

Lemma tagless_find_all f d : tagless d -> find_all f d = [].
Proof. intros H. by apply find_all_clean, tagless_clean. Qed.

Lemma app_question_answer_lists_nil : app.question_answer_lists [] = ([], []).
Proof. reflexivity. Qed.

(** X5: in a document that holds no tag (plain text, comments),
    [extract_faqs_from_html] of [app.py] finds no pair, whatever the text
    says, and [extract_faq] of [model.py] finds the pairs of its mode A
    only. *)
Theorem X5_documents_without_tags (d : soup) :
  tagless d ->
  app.extract_faqs_from_soup d = []
  /\ forall str_lower,
       model.extract_faq_from_soup str_lower d = model.faqs (model.mode_A d empty_found).
Proof.
  intros Ht. split.
  - unfold app.extract_faqs_from_soup. cbv zeta.
    rewrite app_explicit_qna_adds_nothing. cbn [truthy].
    unfold app.remove_noisy_tags. rewrite (decompose_all_id _ _ (tagless_clean _ _ Ht)).
    unfold app.dt_dd, app.heading_paragraph, app.broad_search.
    rewrite !(tagless_find_all _ _ Ht). reflexivity.
  - intros str_lower. unfold model.extract_faq_from_soup. cbv zeta.
    rewrite model_remove_noise_passes.
    rewrite (decompose_all_id _ _ (tagless_clean _ _ Ht)).
    rewrite noise_passes_id by (intros; split; by apply tagless_clean).
    unfold model.mode_B, model.mode_C. rewrite !(tagless_find_all _ _ Ht). reflexivity.
Qed.

(** The text of the example, a comment, and more text. *)
Lemma X5_documents_without_tags_witness :
  app.extract_faqs_from_soup [Text sample; Special (lit "a comment"); Text (lit "Q: x")] = [].
Proof.
  apply (X5_documents_without_tags [Text sample; Special (lit "a comment"); Text (lit "Q: x")]).
  repeat constructor.
Defined.

(** ** The pairs of strategies 2, 3 and 4 of [app.py] *)

Lemma fold_left_snoc_length {X Y} (step : list Y -> X -> list Y) xs :
  (forall acc x, (length (step acc x) <= S (length acc))%nat) ->
  forall acc, (length (fold_left step xs acc) <= length acc + length xs)%nat.
Proof.
  intros H. induction xs as [|x xs IH]; intros acc; simpl; [lia|].
  specialize (IH (step acc x)). specialize (H acc x). lia.
Qed.

Lemma app_dt_dd_length d :
  (length (app.dt_dd d [])
   <= Nat.min (length (find_all (name_in ["dt"%string]) d))
              (length (find_all (name_in ["dd"%string]) d)))%nat.
Proof.
  unfold app.dt_dd.
  etransitivity; [apply fold_left_snoc_length|].
  - intros acc [dt dd]. repeat case_match; rewrite ?length_app; simpl; lia.
  - simpl. by rewrite length_zip.
Qed.

Lemma app_heading_paragraph_questions d faqs :
  Forall (fun f => endswith (lit "?") (app.question f) = true) faqs ->
  Forall (fun f => endswith (lit "?") (app.question f) = true) (app.heading_paragraph d faqs).
Proof.
  apply fold_left_invariant. intros acc h Hacc. cbv beta iota zeta.
  destruct (find_next_sibling h) as [next_tag|]; [|done].
  destruct (name_in _ (node_name next_tag)); [|done].
  destruct (endswith (lit "?") _) eqn:Hq; simpl; [|done].
  destruct (truthy _); simpl; [|done].
  by apply Forall_snoc.
Qed.

Lemma zip_snoc {X Y} (l : list X) (k : list Y) x y :
  length l = length k -> zip (l ++ [x]) (k ++ [y]) = zip l k ++ [(x, y)].
Proof. intros H. by rewrite (zip_with_app pair l [x] k [y] H). Qed.

Lemma app_question_answer_lists_shape texts :
  let qa := app.question_answer_lists texts in
  length (fst qa) = length (snd qa)
  /\ Forall (fun '(q, a) =>
               (startswith (lit "Q") q || endswith (lit "?") q) = true
               /\ startswith (lit "A") a = true)
       (zip (fst qa) (snd qa)).
Proof.
  unfold app.question_answer_lists.
  apply (fold_left_invariant
           (fun qa : list str * list str =>
              length (fst qa) = length (snd qa)
              /\ Forall (fun '(q, a) =>
                           (startswith (lit "Q") q || endswith (lit "?") q) = true
                           /\ startswith (lit "A") a = true)
                   (zip (fst qa) (snd qa)))); [|by split].
  intros [qs ans] i [Hl Hz]. cbv zeta.
  destruct (startswith (lit "Q") (texts !!! i) || endswith (lit "?") (texts !!! i)) eqn:E1;
    destruct (startswith (lit "A") (texts !!! (i + 1)%nat)) eqn:E2;
    cbn [andb fst snd] in *; try by split.
  split; [rewrite !length_app; simpl; lia|].
  rewrite zip_snoc by done. by apply Forall_snoc.
Qed.

Lemma app_append_pairs (pairs : list (str * str)) faqs :
  fold_left (fun faqs '(q, a) => faqs ++ [{| app.question := q; app.answer := a |}]) pairs faqs
  = faqs ++ map (fun '(q, a) => {| app.question := q; app.answer := a |}) pairs.
Proof.
  revert faqs. induction pairs as [|[q a] pairs IH]; intros faqs; simpl.
  - by rewrite app_nil_r.
  - rewrite IH. by rewrite <- app_assoc.
Qed.

(** X6: of the pairs [app.py] builds from the tags, strategy 2 gives at
    most as many as there are [dt] tags and as there are [dd] tags; every
    question of strategy 3 ends with a question mark; and in every pair of
    strategy 4 the question starts with [Q] or ends with a question mark
    and the answer starts with [A], one pair for every question found. *)
Theorem X6_app_strategy_pairs (d : soup) :
  (length (app.dt_dd d [])
   <= Nat.min (length (find_all (name_in ["dt"%string]) d))
              (length (find_all (name_in ["dd"%string]) d)))%nat
  /\ Forall (fun f => endswith (lit "?") (app.question f) = true) (app.heading_paragraph d [])
  /\ Forall (fun f =>
               (startswith (lit "Q") (app.question f) || endswith (lit "?") (app.question f)) = true
               /\ startswith (lit "A") (app.answer f) = true)
       (app.broad_search d [])
  /\ length (app.broad_search d [])
     = length (fst (app.question_answer_lists
                      (map (fun t => get_text [SP] true (el_node t))
                         (find_all (name_in ["p"; "div"; "li"; "span"; "h2"; "h3"; "h4";
                                             "strong"; "b"]%string) d)))).
Proof.
  split; [apply app_dt_dd_length|].
  split; [by apply app_heading_paragraph_questions|].
  unfold app.broad_search. cbv zeta.
  pose proof (app_question_answer_lists_shape
                (map (fun t => get_text [SP] true (el_node t))
                   (find_all (name_in ["p"; "div"; "li"; "span"; "h2"; "h3"; "h4";
                                       "strong"; "b"]%string) d))) as [Hl Hz].
  destruct (app.question_answer_lists _) as [qs ans]. cbn [fst snd] in *.
  rewrite app_append_pairs. simpl. split.
  - apply Forall_fmap. eapply Forall_impl; [exact Hz|]. by intros [q a].
  - rewrite length_map, length_zip. lia.
Qed.

(** ** The fetch cascade when tier 1 answers *)

Lemma app_fetch_after_tier1_answer html_parser w url r :
  requests_get w url 10 = Returned r ->
  raise_for_status r = Returned tt ->
  app.fetch_and_extract_all html_parser w url
  = match app.extract_faqs_from_html html_parser (text r) with
    | Returned faqs =>
        if truthy faqs then (Returned faqs, [])
        else (Returned (fst (later_tiers html_parser w url)),
              snd (later_tiers html_parser w url))
    | Raised e =>
        (Returned (fst (later_tiers html_parser w url)),
         st_error "[!] Requests failed: " e ". Attempting fallback..."
         :: snd (later_tiers html_parser w url))
    end.
Proof.
  intros H Hr.
  destruct (app.extract_faqs_from_html html_parser (text r)) as [faqs|e] eqn:X.
  2: { apply app_fetch_after_tier1_failure. right. exists r. repeat split; try done.
       unfold app.extract_faqs_from_html in X.
       destruct (html_parser (text r)); congruence. }
  revert X.
  unfold app.fetch_and_extract_all, app.get_page_source_selenium, later_tiers, browser_tier,
    tier_pairs, app.extract_faqs_from_html.
  set (ex := app.extract_faqs_from_soup).
  rewrite H. cbn. rewrite Hr. cbn.
  destruct (html_parser (text r)) as [d1|e1]; [|done]. intros [= <-]. cbn.
  destruct (truthy (ex d1)) eqn:T1; cbn; [reflexivity|].
  destruct (html_session w) as [render|]; cbn; rewrite ?T1; cbn.
  - destruct (render url) as [h|e2]; cbn.
    + destruct (html_parser h) as [d2|e2]; cbn.
      * destruct (truthy (ex d2)) eqn:T2; cbn; [reflexivity|]. rewrite T2. cbn.
        destruct (chrome w url) as [h3|e3]; cbn; [destruct (html_parser h3)|]; reflexivity.
      * rewrite T1. cbn.
        destruct (chrome w url) as [h3|e3]; cbn; [destruct (html_parser h3)|]; reflexivity.
    + rewrite T1. cbn.
      destruct (chrome w url) as [h3|e3]; cbn; [destruct (html_parser h3)|]; reflexivity.
  - destruct (chrome w url) as [h3|e3]; cbn; [destruct (html_parser h3)|]; reflexivity.
Qed.

(** X7: when [requests.get] answers and [raise_for_status] accepts the
    status, what [fetch_and_extract_all] of [app.py] does depends on the
    body.  If the parser accepts it and it has pairs, they are returned at
    once, with nothing logged and no other tier used; if it has none, the
    later tiers are gone through and nothing is logged for tier 1; if the
    parser rejects it, its exception is logged as the failure of tier 1
    and the later tiers are gone through. *)
Theorem X7_app_fetch_tier1_answers html_parser w url r :
  requests_get w url 10 = Returned r ->
  raise_for_status r = Returned tt ->
  app.fetch_and_extract_all html_parser w url
  = match app.extract_faqs_from_html html_parser (text r) with
    | Returned faqs =>
        if truthy faqs then (Returned faqs, [])
        else (Returned (fst (later_tiers html_parser w url)),
              snd (later_tiers html_parser w url))
    | Raised e =>
        (Returned (fst (later_tiers html_parser w url)),
         st_error "[!] Requests failed: " e ". Attempting fallback..."
         :: snd (later_tiers html_parser w url))
    end.
Proof. apply app_fetch_after_tier1_answer. Qed.

(** The page is there: its pair comes back from tier 1.  The page is
    rejected by the parser: the pair comes from the browser, after the
    error message of tier 1. *)
Lemma X7_app_fetch_tier1_answers_witness :
  app.fetch_and_extract_all sample_parser w_page url1 = (Returned [why_because], [])
  /\ app.fetch_and_extract_all sample_parser w_rejected url1
     = (Returned [why_because],
        [st_error "[!] Requests failed: " (Exception (lit "ParserRejectedMarkup"))
           ". Attempting fallback...";
         st_info "Falling back to Selenium for full browser automation..."]).
Proof.
  split.
  - exact (X7_app_fetch_tier1_answers sample_parser w_page url1
             {| status_code := 200; text := page_source |} eq_refl eq_refl).
  - exact (X7_app_fetch_tier1_answers sample_parser w_rejected url1
             {| status_code := 200; text := rejected_source |} eq_refl eq_refl).
Defined.

#[local] Arguments contains : simpl never.
#[local] Arguments strip : simpl never.
#[local] Arguments lit : simpl never.

(** X8: when tier 1 answers with an accepted status, [fetch_html] of
    [model.py] renders the page only if [requests_html] is there and the
    URL holds ["faq"] or the body is blank; it returns the rendered page
    when the render succeeds, and the body of tier 1, with the error
    logged, when the render fails. *)
Theorem X8_model_fetch_tier1_answers str_lower w url r :
  requests_get w url 15 = Returned r ->
  raise_for_status r = Returned tt ->
  model.fetch_html str_lower w url
  = match html_session w with
    | Some render =>
        if contains (lit "faq") (str_lower url) || negb (truthy (strip (text r))) then
          match render url with
          | Returned html => (Returned html, [])
          | Raised e => (Returned (text r), [st_error "[!] JS rendering failed: " e ""])
          end
        else (Returned (text r), [])
    | None => (Returned (text r), [])
    end.
Proof.
  intros H Hr. unfold model.fetch_html. rewrite H. cbn. rewrite Hr. cbn.
  destruct (html_session w) as [render|]; cbn; [|reflexivity].
  destruct (contains (lit "faq") (str_lower url) || negb (truthy (strip (text r))));
    cbn; [|reflexivity].
  destruct (render url); reflexivity.
Qed.

(** The status is fine and the URL does not ask for a render. *)
Lemma X8_model_fetch_tier1_answers_witness :
  model.fetch_html ascii_lower w_status_300 url1 = (Returned page_source, []).
Proof.
  exact (X8_model_fetch_tier1_answers ascii_lower w_status_300 url1
           {| status_code := 300; text := page_source |} eq_refl eq_refl).
Defined.

(** ** Requests and the store *)

(** X9: a request for a URL leaves what the store holds, or does not
    hold, under every other URL as it was, in [app.py] and in [model.py]. *)
Theorem X9_request_leaves_other_urls html_parser str_lower w (url u : str) :
  u <> url ->
  (forall s, dict_get u (app.faq_store (session_after (app.extract_button html_parser w url s) s))
             = dict_get u (app.faq_store s))
  /\ (forall s, dict_get u (model.faq_store
                              (session_after (model.on_url str_lower html_parser w url s) s))
                = dict_get u (model.faq_store s)).
Proof.
  intros Hne. split; intros s; unfold session_after.
  - unfold app.extract_button.
    destruct (truthy url); [|done].
    destruct (dict_in url (app.faq_store s)); [done|].
    destruct (app_fetch_never_raises html_parser w url) as (faqs & log & ->). cbn.
    destruct (truthy faqs); cbn; [|done]. by apply dict_get_set_ne.
  - unfold model.on_url.
    destruct (truthy url); [|done].
    destruct (dict_in url (model.faq_store s)); [done|].
    destruct (model.extract_faq str_lower html_parser w url) as [[faqs|e] log]; cbn; [|done].
    by apply dict_get_set_ne.
Qed.

(** A request for [url1] that finds a pair adds nothing under [url2]. *)
Lemma X9_request_leaves_other_urls_witness :
  dict_get url2 (app.faq_store
                   (session_after (app.extract_button sample_parser w_page url1 app_start)
                      app_start)) = None.
Proof.
  refine (proj1 (X9_request_leaves_other_urls sample_parser ascii_lower w_page url1 url2 _)
            app_start).
  intros H. vm_compute in H. discriminate.
Defined.






(** X12: [model.py] stores the result of every extraction, also the empty
    one: a request that found no pair puts the empty list under the URL in
    the store, writes the file from that store, and reports [0] pairs as
    extracted and cached. *)
Theorem X12_model_caches_empty_result str_lower html_parser w url s :
  truthy url = true ->
  dict_in url (model.faq_store s) = false ->
  fst (model.extract_faq str_lower html_parser w url) = Returned [] ->
  let s' := session_after (model.on_url str_lower html_parser w url s) s in
  dict_get url (model.faq_store s') = Some (JArr [])
  /\ model.DATA_FILE s' = model.save_faq_store (model.faq_store s')
  /\ model.on_url str_lower html_parser w url s
     = (Returned (s', Some {| model.from_cache := false; model.shown := JArr [] |}),
        snd (model.extract_faq str_lower html_parser w url)
        ++ [st_success "Extracted " 0 " FAQs and cached."]).
Proof.
  intros Hu Hin Hf s'. subst s'. unfold session_after, model.on_url. rewrite Hu, Hin.
  destruct (model.extract_faq str_lower html_parser w url) as [res log].
  simpl in Hf. subst res. cbn. split; [apply dict_get_set_eq|]. done.
Qed.

Lemma X12_model_caches_empty_result_witness :
  dict_get url1
    (model.faq_store
       (session_after (model.on_url ascii_lower sample_parser w_no_faqs url1 model_start)
          model_start))
  = Some (JArr []).
Proof.
  exact (proj1 (X12_model_caches_empty_result ascii_lower sample_parser w_no_faqs
                  url1 model_start eq_refl eq_refl eq_refl)).
Defined.

Lemma dict_set_absent k v d : dict_in k d = false -> dict_set k v d = d ++ [(k, v)].
Proof.
  unfold dict_in. induction d as [|[k' v'] d IH]; simpl; [done|].
  destruct (str_eqb k k'); [done|]. intros H. f_equal. by apply IH.
Qed.

(** X13: a store that [model.py] saved after adding a URL is never found
    again under that URL by a new run of the script: the file loads as the
    store with the keys ["url"] and ["faqs"] or, with more entries, as the
    empty store, so unless the URL is one of these two words the new run
    extracts again: it shows what [extract_faq] then returns, or raises
    what [extract_faq] then raises. *)
Theorem X13_model_restart_misses str_lower html_parser w w2 url s faqs :
  truthy url = true ->
  dict_in url (model.faq_store s) = false ->
  url <> lit "url" ->
  url <> lit "faqs" ->
  fst (model.extract_faq str_lower html_parser w url) = Returned faqs ->
  let s' := session_after (model.on_url str_lower html_parser w url s) s in
  dict_in url (model.faq_store s') = true
  /\ dict_in url (model.load_faq_store (model.DATA_FILE s')) = false
  /\ match fst (model.extract_faq str_lower html_parser w2 url) with
     | Returned faqs2 =>
         exists s2,
           model.script_run str_lower html_parser w2 url (model.DATA_FILE s')
           = (Returned (s2, Some {| model.from_cache := false;
                                    model.shown := JArr (map model.faq_to_json faqs2) |}),
              snd (model.extract_faq str_lower html_parser w2 url)
              ++ [st_success "Extracted " (length faqs2) " FAQs and cached."])
     | Raised e =>
         model.script_run str_lower html_parser w2 url (model.DATA_FILE s')
         = (Raised e, snd (model.extract_faq str_lower html_parser w2 url))
     end.
Proof.
  intros Hu Hin H1 H2 Hf s'.
  assert (Hs' : s' = {| model.faq_store :=
                          dict_set url (JArr (map model.faq_to_json faqs)) (model.faq_store s);
                        model.DATA_FILE :=
                          model.save_faq_store
                            (dict_set url (JArr (map model.faq_to_json faqs))
                               (model.faq_store s)) |}).
  { subst s'. unfold session_after, model.on_url. rewrite Hu, Hin.
    destruct (model.extract_faq str_lower html_parser w url) as [res log].
    simpl in Hf. subst res. reflexivity. }
  assert (Hload : dict_in url (model.load_faq_store (model.DATA_FILE s')) = false).
  { rewrite Hs'. cbn [model.DATA_FILE]. rewrite (dict_set_absent _ _ _ Hin).
    unfold model.save_faq_store, model.load_faq_store. rewrite map_app.
    destruct (model.faq_store s) as [|[k0 v0] [|[k1 v1] d]]; cbn [map app json_load];
      try reflexivity.
    unfold dict_in. cbn [dict_get]. by rewrite !str_eqb_ne. }
  split; [|split; [exact Hload|]].
  - rewrite Hs'. unfold dict_in. cbn [model.faq_store]. by rewrite dict_get_set_eq.
  - unfold model.script_run, model.on_url. cbn [model.faq_store]. rewrite Hu, Hload.
    destruct (model.extract_faq str_lower html_parser w2 url) as [[faqs2|e2] log2]; cbn.
    + eexists. reflexivity.
    + reflexivity.
Qed.

(** After a first run that stored one pair for [url1], the file does not
    give [url1] back; a second run extracts again, and raises when the page
    is then one that the parser rejects. *)
Lemma X13_model_restart_misses_witness :
  let s' := session_after (model.on_url ascii_lower sample_parser w_page url1 model_start)
              model_start in
  dict_in url1 (model.load_faq_store (model.DATA_FILE s')) = false
  /\ model.script_run ascii_lower sample_parser w_rejected url1 (model.DATA_FILE s')
     = (Raised (Exception (lit "ParserRejectedMarkup")), []).
Proof.
  assert (N1 : url1 <> lit "url") by (intros H; vm_compute in H; discriminate).
  assert (N2 : url1 <> lit "faqs") by (intros H; vm_compute in H; discriminate).
  pose proof (X13_model_restart_misses ascii_lower sample_parser w_page w_rejected url1
                model_start _ eq_refl eq_refl N1 N2 eq_refl) as (_ & H2 & H3).
  exact (conj H2 H3).
Defined.

(** ** The answer shown for a question *)

Lemma first_with_question (l : list model.faq) f :
  NoDup (map model.Q l) -> f ∈ l ->
  head (map model.A (filter (fun line => model.Q line = model.Q f) l)) = Some (model.A f).
Proof.
  induction l as [|x l IH]; intros Hnd Hin; [by apply elem_of_nil in Hin|].
  simpl in Hnd. apply NoDup_cons in Hnd as [Hx Hnd].
  rewrite filter_cons. case_decide as E.
  - simpl. apply elem_of_cons in Hin as [->|Hin]; [done|].
    exfalso. apply Hx. rewrite E. apply list_elem_of_fmap. by exists f.
  - apply elem_of_cons in Hin as [->|Hin]; [done|]. by apply IH.
Qed.

Lemma model_questions_NoDup str_lower d :
  NoDup (map model.Q (model.extract_faq_from_soup str_lower d)).
Proof.
  pose proof (deduplicated_mode_C (model.remove_noise str_lower d) _
                (deduplicated_mode_B (model.remove_noise str_lower d) _
                   (deduplicated_mode_A (model.remove_noise str_lower d) _
                      deduplicated_empty))) as (Hq & _ & _).
  exact Hq.
Qed.

(** X14: in [model.py] the answer shown for a question selected among the
    questions just extracted is the answer extracted with that question:
    the search for the first pair with the question cannot meet another
    pair, since no question occurs twice. *)
Theorem X14_model_selected_answer str_lower (d : soup) (f : model.faq) :
  f ∈ model.extract_faq_from_soup str_lower d ->
  selected_answer (model.Q f) (model.extract_faq_from_soup str_lower d) = model.A f.
Proof.
  intros Hin. unfold selected_answer.
  rewrite (first_with_question _ f); [done| |done].
  apply model_questions_NoDup.
Qed.

(** The second question of the example. *)
Lemma X14_model_selected_answer_witness :
  selected_answer (lit "Why?") (model.extract_faq_from_soup ascii_lower [Text sample])
  = lit "Because.".
Proof.
  apply (X14_model_selected_answer ascii_lower [Text sample]
           {| model.Q := lit "Why?"; model.A := lit "Because." |}).
  assert (E : model.extract_faq_from_soup ascii_lower [Text sample]
              = [{| model.Q := lit "What?"; model.A := lit "This." |};
                 {| model.Q := lit "Why?"; model.A := lit "Because." |}])
    by (vm_compute; reflexivity).
  rewrite E. repeat constructor.
Defined.

(** ** What [clean_text] lets through *)

Lemma sub_from_Forall (P : N -> Prop) r repl :
  Forall P repl -> forall s skip, Forall P s -> Forall P (sub_from r repl skip s).
Proof.
  intros Hrepl. induction s as [|c s IH]; intros skip Hs.
  - destruct skip; simpl; [|done]. destruct (match_at r []) as [[len g]|]; [|done].
    by rewrite app_nil_r.
  - apply Forall_cons in Hs as [Hc Hs]. destruct skip as [|n]; simpl; [|by apply IH].
    destruct (match_at r (c :: s)) as [[[|len] g]|].
    + apply Forall_app. split; [done|]. constructor; [done|]. by apply IH.
    + apply Forall_app. split; [done|]. by apply IH.
    + constructor; [done|]. by apply IH.
Qed.

Lemma sub_Forall (P : N -> Prop) r repl s :
  Forall P repl -> Forall P s -> Forall P (sub r repl s).
Proof. intros. by apply sub_from_Forall. Qed.

Lemma spaced_Forall t : spaced t -> Forall (fun c => is_space c = true -> c = SP) t.
Proof.
  induction t as [|c t IH]; simpl; [constructor|].
  intros [Hc Ht]. constructor; [|by apply IH]. intros E. by destruct (Hc E).
Qed.

Lemma Forall_and_clean_char t :
  Forall (fun c => c <> PILCROW /\ c <> A_CIRC) t ->
  Forall (fun c => is_space c = true -> c = SP) t ->
  Forall clean_char t.
Proof.
  intros H1 H2. apply Forall_forall. intros c Hc.
  rewrite Forall_forall in H1, H2. destruct (H1 c Hc). repeat split; auto.
Qed.

Lemma app_clean_text_clean_char s : Forall clean_char (app.clean_text s).
Proof.
  unfold app.clean_text. cbv zeta. unfold app.re_spaces.
  rewrite (sub_no_match spaced app.re_nbsp [SP] spaced_tail nbsp_no_match)
    by apply sub_spaces_spaced.
  apply Forall_and_clean_char.
  - apply strip_Forall, sub_spaces_Forall; [done|].
    apply sub_Forall; [constructor|].
    unfold app.re_symbols. rewrite sub_Chr_remove.
    apply Forall_forall. intros c [Hc _]%list_elem_of_filter.
    unfold one_of in Hc. simpl in Hc. apply orb_false_iff in Hc as [H1 H2].
    apply orb_false_iff in H2 as [H2 _]. split; by apply N.eqb_neq.
  - apply spaced_Forall, strip_spaced, sub_spaces_spaced.
Qed.

Lemma model_clean_text_clean_char s : Forall clean_char (model.clean_text s).
Proof.
  unfold model.clean_text. cbv zeta. unfold model.re_spaces.
  rewrite (sub_no_match spaced model.re_nbsp [SP] spaced_tail nbsp_no_match)
    by apply sub_spaces_spaced.
  apply strip_Forall, sub_Forall; [by repeat constructor|].
  apply Forall_and_clean_char.
  - apply sub_spaces_Forall; [done|]. apply sub_Forall; [constructor|].
    unfold model.re_pilcrow, model.re_a_circ. rewrite !sub_Chr_remove.
    apply Forall_forall. intros c [H2 [H1 _]%list_elem_of_filter]%list_elem_of_filter.
    unfold is_char in H1, H2. split; by apply N.eqb_neq.
  - apply spaced_Forall, sub_spaces_spaced.
Qed.

(** X15: what [clean_text] returns, in [app.py] and in [model.py], holds
    no pilcrow, no [Â] and no white space character other than the space
    (no line feed, tab or non-breaking space), and has no white space at
    either end. *)
Theorem X15_clean_text_characters (s : str) :
  Forall clean_char (app.clean_text s)
  /\ strip (app.clean_text s) = app.clean_text s
  /\ Forall clean_char (model.clean_text s)
  /\ strip (model.clean_text s) = model.clean_text s.
Proof.
  split; [apply app_clean_text_clean_char|].
  split; [apply strip_strip|].
  split; [|apply strip_strip].
  apply model_clean_text_clean_char.
Qed.


(** ** When [clean_text] of [app.py] is idempotent *)

Lemma remove_citation_markers_from_length skip s :
  (length (remove_citation_markers_from skip s) <= length s)%nat.
Proof.
  revert skip. induction s as [|c s IH]; intros skip; [done|].
  cbn [remove_citation_markers_from]. destruct skip as [|n].
  - destruct (citation_marker (c :: s)) as [len|].
    + specialize (IH (Nat.pred len)). simpl. lia.
    + specialize (IH 0%nat). simpl. lia.
  - specialize (IH n). simpl. lia.
Qed.

Lemma remove_citation_markers_shorter s :
  has_marker s = true -> (length (remove_citation_markers s) < length s)%nat.
Proof.
  unfold remove_citation_markers. induction s as [|c s IH]; [done|].
  cbn [has_marker remove_citation_markers_from].
  destruct (citation_marker (c :: s)) as [len|].
  - intros _. pose proof (remove_citation_markers_from_length (Nat.pred len) s). simpl. lia.
  - simpl. intros H. specialize (IH H). lia.
Qed.

Lemma sub_spaces_length s : (length (sub (PlusG is_space) [SP] s) <= length s)%nat.
Proof.
  apply (sub_spaces_ind (fun s t => (length t <= length s)%nat)); [done| |].
  - intros c s' _ IH. pose proof (lstrip_length s'). simpl. lia.
  - intros c s' _ IH. simpl. lia.
Qed.

Lemma strip_length s : (length (strip s) <= length s)%nat.
Proof.
  unfold strip, rstrip. rewrite length_rev.
  etransitivity; [apply lstrip_length|]. rewrite length_rev. apply lstrip_length.
Qed.

Lemma clean_char_symbols_no_match s :
  Forall clean_char s -> match_at app.re_symbols s = None.
Proof.
  unfold app.re_symbols. rewrite match_at_Chr. destruct s as [|c s]; [done|].
  intros [(H1 & H2 & _) _]%Forall_cons. unfold one_of. simpl.
  apply N.eqb_neq in H1, H2. by rewrite H1, H2.
Qed.

Lemma Forall_clean_char_tail c s : Forall clean_char (c :: s) -> Forall clean_char s.
Proof. by intros [_ H]%Forall_cons. Qed.

(** A second pass of [clean_text] of [app.py] changes its argument exactly
    when a citation marker starts in it. *)
Lemma app_clean_text_twice (s : str) :
  app.clean_text (app.clean_text s) = app.clean_text s
  <-> has_marker (app.clean_text s) = false.
Proof.
  set (t := app.clean_text s).
  assert (Hc : Forall clean_char t) by apply app_clean_text_clean_char.
  assert (Hsym : sub app.re_symbols [] t = t)
    by exact (sub_no_match (Forall clean_char) app.re_symbols [] Forall_clean_char_tail
                clean_char_symbols_no_match t Hc).
  split.
  - intros Hid. destruct (has_marker t) eqn:E; [exfalso|done].
    apply remove_citation_markers_shorter in E.
    assert (Hlen : (length (app.clean_text t) <= length (remove_citation_markers t))%nat).
    { unfold app.clean_text. cbv zeta. rewrite Hsym, app_citation_sub.
      unfold app.re_nbsp, app.re_spaces. rewrite sub_Chr_replace.
      etransitivity; [apply strip_length|]. rewrite length_map. apply sub_spaces_length. }
    rewrite Hid in Hlen. lia.
  - intros E. unfold app.clean_text at 1. cbv zeta. fold t.
    rewrite Hsym, app_citation_sub, (remove_citation_markers_none _ E).
    assert (Hsp : spaced t).
    { subst t. unfold app.clean_text. cbv zeta. unfold app.re_spaces.
      rewrite (sub_no_match spaced app.re_nbsp [SP] spaced_tail nbsp_no_match)
        by apply sub_spaces_spaced.
      apply strip_spaced, sub_spaces_spaced. }
    unfold app.re_spaces. rewrite (sub_spaces_id t Hsp).
    rewrite (sub_no_match spaced app.re_nbsp [SP] spaced_tail nbsp_no_match t Hsp).
    subst t. unfold app.clean_text. cbv zeta. apply strip_strip.
Qed.

(** X16: applying [clean_text] of [app.py] twice gives what applying it
    once gives exactly when no citation marker starts in what it returns:
    a marker that the first pass created, as in ["[[1]2]"], is the only
    thing a second pass changes. *)
Theorem X16_app_clean_text_idempotent_iff (s : str) :
  app.clean_text (app.clean_text s) = app.clean_text s
  <-> has_marker (app.clean_text s) = false.
Proof. apply app_clean_text_twice. Qed.

(** C6 (amended): for every text [s], applying [clean_text] of [app.py]
    twice gives what applying it once gives if and only if no citation
    marker, an opening bracket, digits and a closing bracket, starts in
    what the first pass returns; this is the case in particular for every
    text without an opening bracket. *)
Theorem C6_app_idempotent_iff_no_marker_left (s : str) :
  (app.clean_text (app.clean_text s) = app.clean_text s
   <-> has_marker (app.clean_text s) = false)
  /\ (LBRACK ∉ s -> app.clean_text (app.clean_text s) = app.clean_text s).
Proof.
  split; [apply app_clean_text_twice|].
  intros Hs. by apply app_clean_text_normal_id, app_clean_text_normal.
Qed.

(** A text with a citation marker: the first pass removes it and leaves
    none, and a second pass changes nothing. *)
Lemma C6_app_idempotent_iff_no_marker_left_witness :
  has_marker (app.clean_text (lit "see [1] here")) = false
  /\ app.clean_text (app.clean_text (lit "see [1] here")) = app.clean_text (lit "see [1] here").
Proof.
  split; [vm_compute; reflexivity|].
  apply (proj2 (proj1 (C6_app_idempotent_iff_no_marker_left (lit "see [1] here")))).
  vm_compute. reflexivity.
Defined.

(** ** The browser *)

(** X17: [get_page_source_selenium] of [app.py] quits the browser it
    started only when loading the page and reading its source both
    succeed: when one of them raises, the function raises with the
    browser still running, and it returns a page only after [quit]. *)
Theorem X17_selenium_quits_only_on_success (c : selenium.driver) (url : str) :
  selenium.on_Chrome c = Returned tt ->
  (selenium.driver_quit ∈ snd (selenium.get_page_source_selenium c url)
   <-> selenium.on_get c url = Returned tt
       /\ exists html, selenium.on_page_source c = Returned html)
  /\ (forall html, fst (selenium.get_page_source_selenium c url) = Returned html ->
        snd (selenium.get_page_source_selenium c url)
        = [selenium.webdriver_Chrome; selenium.driver_get url; selenium.time_sleep 5;
           selenium.driver_page_source; selenium.driver_quit]).
Proof.
  intros Hc. unfold selenium.get_page_source_selenium. rewrite Hc.
  destruct (selenium.on_get c url) as [[]|e1]; simpl.
  - destruct (selenium.on_page_source c) as [h|e2]; simpl.
    + destruct (selenium.on_quit c) as [[]|e3]; simpl; (split; [|done]);
        (split; [intros _; eauto | intros _; repeat constructor]).
    + split; [|done]. split.
      * intros H. repeat (apply elem_of_cons in H as [H|H]; [discriminate|]).
        by apply elem_of_nil in H.
      * by intros [_ [h [=]]].
  - split; [|done]. split.
    + intros H. repeat (apply elem_of_cons in H as [H|H]; [discriminate|]).
      by apply elem_of_nil in H.
    + by intros [[=] _].
Qed.

(** The page does not load: Chrome was started and is not quit. *)
Lemma X17_selenium_quits_only_on_success_witness :
  selenium.get_page_source_selenium chrome_page_down url1
  = (Raised (Exception (lit "net::ERR_NAME_NOT_RESOLVED")),
     [selenium.webdriver_Chrome; selenium.driver_get url1])
  /\ ~ selenium.driver_quit ∈ snd (selenium.get_page_source_selenium chrome_page_down url1).
Proof.
  split; [reflexivity|].
  intros H.
  apply (proj1 (proj1 (X17_selenium_quits_only_on_success chrome_page_down url1 eq_refl))) in H.
  destruct H as [H _]. discriminate H.
Defined.

(** ** Bracketed spans in [clean_text] of [model.py] *)

Lemma not_elem_of_Forall (x : N) l : x ∉ l <-> Forall (fun c => c <> x) l.
Proof.
  rewrite Forall_forall. split.
  - intros H c Hc ->. by apply H.
  - intros H Hx. by apply (H x Hx).
Qed.

Lemma span_close_none t :
  Forall (fun c => c <> NL) t -> span_close t = None -> RBRACK ∉ t.
Proof.
  induction 1 as [|d t Hd _ IH]; cbn [span_close]; [intros _; apply not_elem_of_nil|].
  destruct (d =? RBRACK) eqn:Hr; [done|]. apply N.eqb_neq in Hr.
  destruct (d =? NL) eqn:Hn; [by apply N.eqb_eq in Hn|].
  destruct (span_close t); cbn [option_map]; [done|]. intros _.
  apply not_elem_of_cons. split; [congruence|by apply IH].
Qed.

Lemma model_bracketed_sub_cons c s :
  sub model.re_bracketed [SP] (c :: s)
  = match bracketed_span (c :: s) with
    | Some len => SP :: sub model.re_bracketed [SP] (drop (Nat.pred len) s)
    | None => c :: sub model.re_bracketed [SP] s
    end.
Proof.
  destruct (bracketed_span (c :: s)) as [len|] eqn:E.
  - assert (exists k, len = S (S k) /\ (k < length s)%nat) as (k & -> & Hk).
    { unfold bracketed_span in E. destruct (c =? LBRACK); [|done].
      destruct (span_close s) as [k|] eqn:Ek; [|done]. injection E as <-.
      exists k. split; [done|]. by apply span_close_lt. }
    rewrite (sub_cons_match _ _ _ _ (S k) []); [done| |lia].
    by rewrite model_bracketed_match, E.
  - apply sub_cons_no_match. by rewrite model_bracketed_match, E.
Qed.

Lemma model_bracketed_no_pair t :
  Forall (fun c => c <> NL) t -> no_bracket_pair (sub model.re_bracketed [SP] t).
Proof.
  remember (length t) as n eqn:Hn. revert t Hn.
  induction n as [n IH] using lt_wf_ind. intros t Hn Ht.
  destruct t as [|c s].
  - rewrite sub_nil_no_match; [done|]. by rewrite model_bracketed_match.
  - rewrite model_bracketed_sub_cons. apply Forall_cons in Ht as [Hc Hs].
    destruct (bracketed_span (c :: s)) as [len|] eqn:E.
    + simpl. split; [done|]. eapply IH; [|reflexivity|by apply Forall_drop].
      rewrite length_drop. simpl in Hn. lia.
    + simpl. split.
      * intros ->. unfold bracketed_span in E. rewrite N.eqb_refl in E.
        destruct (span_close s) eqn:Es; [done|].
        apply not_elem_of_Forall, sub_Forall; [by repeat constructor|].
        by apply not_elem_of_Forall, span_close_none.
      * eapply IH; [|reflexivity|done]. simpl in Hn. lia.
Qed.

Lemma no_bracket_pair_drop n u : no_bracket_pair u -> no_bracket_pair (drop n u).
Proof.
  revert u. induction n as [|n IH]; intros [|c u]; simpl; try done.
  intros [_ H]. by apply IH.
Qed.

Lemma no_bracket_pair_app_l a b : no_bracket_pair (a ++ b) -> no_bracket_pair a.
Proof.
  induction a as [|c a IH]; simpl; [done|].
  intros [Hc H]. split; [|by apply IH].
  intros E Hin. apply (Hc E). apply elem_of_app. by left.
Qed.

Lemma strip_no_bracket_pair u : no_bracket_pair u -> no_bracket_pair (strip u).
Proof.
  intros H. unfold strip.
  destruct (rstrip_prefix (lstrip u)) as [post Hpost].
  apply (no_bracket_pair_app_l _ post). rewrite <- Hpost, lstrip_drop.
  by apply no_bracket_pair_drop.
Qed.

Lemma model_clean_text_no_bracket_pair (s : str) : no_bracket_pair (model.clean_text s).
Proof.
  unfold model.clean_text. cbv zeta. unfold model.re_spaces.
  rewrite (sub_no_match spaced model.re_nbsp [SP] spaced_tail nbsp_no_match)
    by apply sub_spaces_spaced.
  apply strip_no_bracket_pair, model_bracketed_no_pair.
  eapply Forall_impl; [apply spaced_Forall, sub_spaces_spaced|].
  intros c Hc ->. by specialize (Hc eq_refl).
Qed.

(** X18: in what [clean_text] of [model.py] returns no opening bracket is
    followed by a closing bracket: every bracketed span is gone, whatever
    was in it. *)
Theorem X18_model_clean_text_no_bracketed_span (s : str) :
  no_bracket_pair (model.clean_text s).
Proof. apply model_clean_text_no_bracket_pair. Qed.

(** ** An empty result of the cascade *)

Lemma browser_tier_logged html_parser w url :
  st_info "Falling back to Selenium for full browser automation..."
    ∈ snd (browser_tier html_parser w url).
Proof.
  unfold browser_tier. destruct (tier_pairs html_parser (chrome w url)); simpl;
    repeat constructor.
Qed.

Lemma later_tiers_empty html_parser w url :
  fst (later_tiers html_parser w url) = [] ->
  st_info "Falling back to Selenium for full browser automation..."
    ∈ snd (later_tiers html_parser w url).
Proof.
  unfold later_tiers.
  destruct (html_session w) as [render|]; [|intros _; apply browser_tier_logged].
  destruct (tier_pairs html_parser (render url)) as [faqs|e2].
  - destruct (truthy faqs) eqn:T; simpl.
    + intros E. rewrite E in T. discriminate.
    + intros _. right. apply browser_tier_logged.
  - simpl. intros _. do 2 right. apply browser_tier_logged.
Qed.

(** X19: [fetch_and_extract_all] of [app.py] returns no pair only after
    it has tried the browser: whenever its result is empty, the message of
    the fall-back to Selenium is among those it logged. *)
Theorem X19_app_empty_only_after_browser html_parser w url :
  fst (app.fetch_and_extract_all html_parser w url) = Returned [] ->
  st_info "Falling back to Selenium for full browser automation..."
    ∈ snd (app.fetch_and_extract_all html_parser w url).
Proof.
  assert (Hfail : forall e, app_tier1_fails html_parser w url e ->
            fst (app.fetch_and_extract_all html_parser w url) = Returned [] ->
            st_info "Falling back to Selenium for full browser automation..."
              ∈ snd (app.fetch_and_extract_all html_parser w url)).
  { intros e He. rewrite (app_fetch_after_tier1_failure _ _ _ _ He). simpl.
    intros [= E]. right. by apply later_tiers_empty. }
  destruct (requests_get w url 10) as [r|e] eqn:Hg; [|apply (Hfail e); left; by left].
  destruct (raise_for_status_cases r) as [Hr|Hr];
    [|apply (Hfail (HTTPError (status_code r))); left; right; eauto].
  rewrite (app_fetch_after_tier1_answer _ _ _ _ Hg Hr).
  destruct (app.extract_faqs_from_html html_parser (text r)) as [faqs|e]; simpl.
  - destruct (truthy faqs) eqn:T; simpl.
    + intros [= E]. rewrite E in T. discriminate.
    + intros [= E]. by apply later_tiers_empty.
  - intros [= E]. right. by apply later_tiers_empty.
Qed.

(** Every tier is down. *)
Lemma X19_app_empty_only_after_browser_witness :
  st_info "Falling back to Selenium for full browser automation..."
    ∈ snd (app.fetch_and_extract_all sample_parser w_all_down url1).
Proof. exact (X19_app_empty_only_after_browser sample_parser w_all_down url1 eq_refl). Defined.

(** ** The answer of a heading *)

(** X20: the answer mode C of [model.py] collects for a heading takes
    nothing from the siblings that come after the next [h2], [h3], [h4],
    [dt] or [div]: it is the answer collected from the siblings before
    that tag. *)
Theorem X20_model_answer_stops (before after : list node) (stop : node) :
  stops_answer stop = true ->
  model.answer_parts (before ++ stop :: after) = model.answer_parts before.
Proof.
  intros Hs. induction before as [|x before IH]; cbn [app model.answer_parts].
  - unfold stops_answer in Hs. by rewrite Hs.
  - rewrite IH. reflexivity.
Qed.

Lemma X20_model_answer_stops_witness :
  model.answer_parts
    ([tag "p" [Text (lit "Like this.")]]
       ++ tag "h2" [Text (lit "Next?")] :: [tag "p" [Text (lit "Not this.")]])
  = model.answer_parts [tag "p" [Text (lit "Like this.")]].
Proof.
  exact (X20_model_answer_stops [tag "p" [Text (lit "Like this.")]]
           [tag "p" [Text (lit "Not this.")]] (tag "h2" [Text (lit "Next?")]) eq_refl).
Defined.

(** ** What a second normalization leaves *)

Lemma elem_of_rev (c : N) s : c ∈ rev s <-> c ∈ s.
Proof. rewrite !list_elem_of_In. symmetry. apply in_rev. Qed.

(** A character that is no white space is not stripped and not collapsed. *)
Lemma lstrip_keeps c s : is_space c = false -> c ∈ s -> c ∈ lstrip s.
Proof.
  intros Hc. induction s as [|x s IH]; simpl; [done|].
  destruct (is_space x) eqn:E; [|done].
  intros [->|H]%elem_of_cons; [congruence|by apply IH].
Qed.

Lemma strip_keeps c s : is_space c = false -> c ∈ s -> c ∈ strip s.
Proof.
  intros Hc H. unfold strip, rstrip.
  apply elem_of_rev, lstrip_keeps; [done|]. apply elem_of_rev. by apply lstrip_keeps.
Qed.

Lemma sub_spaces_keeps c s :
  is_space c = false -> c ∈ s -> c ∈ sub (PlusG is_space) [SP] s.
Proof.
  intros Hc. apply (sub_spaces_ind (fun s t => c ∈ s -> c ∈ t)); [done| |].
  - intros x s' Hx IH [->|H]%elem_of_cons; [congruence|].
    right. apply IH. by apply lstrip_keeps.
  - intros x s' Hx IH [->|H]%elem_of_cons; [by left|]. right. by apply IH.
Qed.

Lemma span_len_take p s : Forall (fun x => p x = true) (take (span_len p s) s).
Proof.
  induction s as [|x s IH]; simpl; [done|].
  destruct (p x) eqn:E; simpl; [by constructor|done].
Qed.

(** A citation marker is made of brackets and digits. *)
Lemma citation_marker_take s len :
  citation_marker s = Some len ->
  Forall (fun x => x = LBRACK \/ x = RBRACK \/ is_digit x = true) (take len s).
Proof.
  unfold citation_marker. destruct s as [|c s1]; [done|].
  destruct (c =? LBRACK) eqn:Ec; [|done]. apply N.eqb_eq in Ec.
  pose proof (span_len_take is_digit s1) as Hd.
  destruct (span_len is_digit s1) as [|k]; [done|].
  destruct (drop (S k) s1) as [|d rest] eqn:Ed; [done|].
  destruct (d =? RBRACK) eqn:Er; [|done]. apply N.eqb_eq in Er. intros [= <-].
  cbn [take]. constructor; [by left|].
  assert (Hl : s1 !! S k = Some d).
  { rewrite <- (Nat.add_0_r (S k)), <- lookup_drop, Ed. done. }
  rewrite (take_S_r _ _ _ Hl). apply Forall_app. split.
  - eapply Forall_impl; [exact Hd|]. intros; auto.
  - constructor; [auto|done].
Qed.

Lemma remove_citation_markers_keeps c :
  solid c -> forall s skip,
  Forall (fun x => x <> c) (take skip s) -> c ∈ s ->
  c ∈ remove_citation_markers_from skip s.
Proof.
  intros (Hs & _ & _ & Hl & Hr & Hd).
  induction s as [|x s IH]; intros skip Hskip Hin; [done|].
  cbn [remove_citation_markers_from]. destruct skip as [|n].
  - destruct (citation_marker (x :: s)) as [len|] eqn:E.
    + pose proof (citation_marker_take _ _ E) as Ht.
      destruct (citation_marker_pos _ _ E) as [m ->]. cbn [take Nat.pred] in Ht |- *.
      apply Forall_cons in Ht as [Hx Ht].
      apply IH.
      * eapply Forall_impl; [exact Ht|]. intros y Hy Heq. subst y.
        destruct Hy as [?|[?|?]]; congruence.
      * apply elem_of_cons in Hin as [Heq|Hin]; [|done]. subst x.
        destruct Hx as [?|[?|?]]; congruence.
    + apply elem_of_cons in Hin as [->|Hin]; [by left|]. right.
      apply IH; [by rewrite take_0|done].
  - cbn [take] in Hskip. apply Forall_cons in Hskip as [Hx Hskip].
    apply IH; [done|]. by apply elem_of_cons in Hin as [->|Hin].
Qed.

(** [clean_text] of [app.py] keeps every such character. *)
Lemma app_clean_text_keeps c s : solid c -> c ∈ s -> c ∈ app.clean_text s.
Proof.
  intros Hc Hin. pose proof Hc as (Hs & Hp & Ha & _).
  unfold app.clean_text. cbv zeta.
  apply strip_keeps; [done|].
  unfold app.re_nbsp. rewrite sub_Chr_replace.
  apply list_elem_of_fmap. exists c. split.
  { unfold is_char. destruct (c =? NBSP) eqn:E; [|done].
    apply N.eqb_eq in E. subst c. vm_compute in Hs. discriminate. }
  apply sub_spaces_keeps; [done|].
  rewrite app_citation_sub. apply remove_citation_markers_keeps; [done|by rewrite take_0|].
  unfold app.re_symbols. rewrite sub_Chr_remove.
  apply list_elem_of_filter. split; [|done].
  unfold one_of. simpl. apply N.eqb_neq in Hp, Ha. by rewrite Hp, Ha.
Qed.

Lemma app_clean_text_nonempty c s : solid c -> c ∈ s -> app.clean_text s <> [].
Proof.
  intros Hc Hin E. pose proof (app_clean_text_keeps c s Hc Hin) as H.
  rewrite E in H. by apply elem_of_nil in H.
Qed.

Lemma startswith_head c s : startswith [c] s = true -> c ∈ s.
Proof.
  destruct s as [|b s]; simpl; [done|]. rewrite andb_true_r.
  intros ->%N.eqb_eq. by left.
Qed.

Lemma endswith_last c s : endswith [c] s = true -> c ∈ s.
Proof. unfold endswith. simpl. intros H. by apply elem_of_rev, startswith_head. Qed.

Lemma solid_letters : solid 63 /\ solid 81 /\ solid 65.
Proof. unfold solid. repeat split; try reflexivity; discriminate. Qed.

Lemma app_question_normalized q :
  (startswith (lit "Q") q || endswith (lit "?") q) = true -> app.clean_text q <> [].
Proof.
  destruct solid_letters as (H63 & H81 & _).
  intros [H|H]%orb_true_iff.
  - apply (app_clean_text_nonempty 81); [done|]. by apply startswith_head.
  - apply (app_clean_text_nonempty 63); [done|]. by apply endswith_last.
Qed.

Lemma app_answer_normalized a :
  startswith (lit "A") a = true -> app.clean_text a <> [].
Proof.
  destruct solid_letters as (_ & _ & H65).
  intros H. apply (app_clean_text_nonempty 65); [done|]. by apply startswith_head.
Qed.

(** A second pass of [clean_text] of [model.py]: what the first pass
    returned has no pilcrow, no [Â] and no bracketed span, so only the
    white space is collapsed again. *)
Lemma clean_char_pilcrow_no_match s :
  Forall clean_char s -> match_at model.re_pilcrow s = None.
Proof.
  unfold model.re_pilcrow. rewrite match_at_Chr. destruct s as [|c s]; [done|].
  intros [(H1 & _) _]%Forall_cons. unfold is_char. apply N.eqb_neq in H1. by rewrite H1.
Qed.

Lemma clean_char_a_circ_no_match s :
  Forall clean_char s -> match_at model.re_a_circ s = None.
Proof.
  unfold model.re_a_circ. rewrite match_at_Chr. destruct s as [|c s]; [done|].
  intros [(_ & H2 & _) _]%Forall_cons. unfold is_char. apply N.eqb_neq in H2. by rewrite H2.
Qed.

Lemma citation_marker_pair c s len :
  citation_marker (c :: s) = Some len -> c = LBRACK /\ RBRACK ∈ s.
Proof.
  unfold citation_marker.
  destruct (c =? LBRACK) eqn:Ec; [|done]. apply N.eqb_eq in Ec.
  destruct (span_len is_digit s) as [|k]; [done|].
  destruct (drop (S k) s) as [|d rest] eqn:Ed; [done|].
  destruct (d =? RBRACK) eqn:Er; [|done]. apply N.eqb_eq in Er. subst d. intros _.
  split; [done|]. apply (list_elem_of_lookup_2 _ (S k)).
  rewrite <- (Nat.add_0_r (S k)), <- lookup_drop, Ed. done.
Qed.

Lemma span_close_elem t k : span_close t = Some k -> RBRACK ∈ t.
Proof.
  revert k. induction t as [|d t IH]; intros k; cbn [span_close]; [done|].
  destruct (d =? RBRACK) eqn:Er; [apply N.eqb_eq in Er; subst d; intros _; by left|].
  destruct (d =? NL); [done|].
  destruct (span_close t) as [k'|]; [|done]. intros _. right. by eapply IH.
Qed.

Lemma no_bracket_pair_tail c s : no_bracket_pair (c :: s) -> no_bracket_pair s.
Proof. by intros [_ H]. Qed.

(** The pattern [<\[\d+\]] of [model.py] needs a citation marker after the
    [<]. *)
Lemma model_citation_match s :
  match_at model.re_citation s
  = match s with
    | c :: s1 =>
        if c =? 60 then option_map (fun n => (S n, [])) (citation_marker s1) else None
    | [] => None
    end.
Proof.
  unfold match_at, model.re_citation, PlusG. cbn [seq_of].
  destruct s as [|c0 s0]; [done|]. cbn [exec]. unfold is_char at 1.
  destruct (c0 =? 60); [|done].
  destruct s0 as [|c s1]; [done|]. cbn [exec citation_marker]. unfold is_char at 1.
  destruct (c =? LBRACK); [|done].
  destruct s1 as [|d s2]; [done|]. cbn [span_len]. destruct (is_digit d); [|done].
  rewrite star_greedy_run.
  - cbn [drop]. pose proof (span_len_le is_digit s2) as Hle.
    pose proof (length_drop s2 (span_len is_digit s2)) as Hlen.
    destruct (drop (span_len is_digit s2) s2) as [|e t']; [reflexivity|].
    unfold is_char. destruct (e =? RBRACK); [|reflexivity]. simpl in *.
    do 2 f_equal. lia.
  - intros c' s' Hc'. left. by rewrite (digit_not_rbrack c' Hc').
Qed.

Lemma model_citation_no_pair_no_match s :
  no_bracket_pair s -> match_at model.re_citation s = None.
Proof.
  rewrite model_citation_match. destruct s as [|c [|d s]]; [done|by destruct (c =? 60)|].
  intros (_ & Hd & _). destruct (c =? 60); [|done].
  destruct (citation_marker (d :: s)) as [len|] eqn:E; [|done].
  apply citation_marker_pair in E as [-> Hin]. by destruct (Hd eq_refl).
Qed.

Lemma model_bracketed_no_pair_no_match s :
  no_bracket_pair s -> match_at model.re_bracketed s = None.
Proof.
  rewrite model_bracketed_match. destruct s as [|c s]; [done|].
  intros (Hc & _). cbn [bracketed_span].
  destruct (c =? LBRACK) eqn:Ec; [|done]. apply N.eqb_eq in Ec.
  destruct (span_close s) as [k|] eqn:E; [|done].
  apply span_close_elem in E. by destruct (Hc Ec).
Qed.

Lemma sub_spaces_no_bracket_pair s :
  no_bracket_pair s -> no_bracket_pair (sub (PlusG is_space) [SP] s).
Proof.
  apply (sub_spaces_ind (fun s t => no_bracket_pair s -> no_bracket_pair t)); [done| |].
  - intros c s' _ IH [_ H]. split; [done|]. apply IH.
    rewrite lstrip_drop. by apply no_bracket_pair_drop.
  - intros c s' _ IH [Hc H]. split; [|by apply IH].
    intros E. apply not_elem_of_Forall, sub_spaces_Forall; [done|].
    by apply not_elem_of_Forall, Hc.
Qed.

Lemma model_clean_text_twice (s : str) :
  model.clean_text (model.clean_text s)
  = strip (sub (PlusG is_space) [SP] (model.clean_text s)).
Proof.
  set (t := model.clean_text s).
  assert (Hc : Forall clean_char t) by apply model_clean_text_clean_char.
  assert (Hb : no_bracket_pair t) by apply model_clean_text_no_bracket_pair.
  unfold model.clean_text. cbv zeta.
  rewrite (sub_no_match (Forall clean_char) model.re_pilcrow [] Forall_clean_char_tail
             clean_char_pilcrow_no_match t Hc).
  rewrite (sub_no_match (Forall clean_char) model.re_a_circ [] Forall_clean_char_tail
             clean_char_a_circ_no_match t Hc).
  rewrite (sub_no_match no_bracket_pair model.re_citation [] no_bracket_pair_tail
             model_citation_no_pair_no_match t Hb).
  unfold model.re_spaces.
  rewrite (sub_no_match spaced model.re_nbsp [SP] spaced_tail nbsp_no_match)
    by apply sub_spaces_spaced.
  by rewrite (sub_no_match no_bracket_pair model.re_bracketed [SP] no_bracket_pair_tail
                model_bracketed_no_pair_no_match)
    by (by apply sub_spaces_no_bracket_pair).
Qed.

Lemma stripped_nonempty t :
  t <> [] -> strip t = t -> exists c, is_space c = false /\ c ∈ t.
Proof.
  intros Hne Hst.
  assert (H : starts_nonspace (strip t))
    by apply rstrip_starts_nonspace, lstrip_starts_nonspace.
  rewrite Hst in H. destruct t as [|c t]; [done|]. exists c. split; [exact H|by left].
Qed.

(** What [clean_text] of [model.py] returned non-empty stays non-empty
    when it is normalized again. *)
Lemma model_clean_text_again x :
  model.clean_text x <> [] -> model.clean_text (model.clean_text x) <> [].
Proof.
  intros Hne. rewrite model_clean_text_twice.
  destruct (stripped_nonempty (model.clean_text x) Hne) as (c & Hc & Hin).
  { unfold model.clean_text. cbv zeta. apply strip_strip. }
  intros E.
  assert (H : c ∈ strip (sub (PlusG is_space) [SP] (model.clean_text x)))
    by by apply strip_keeps, sub_spaces_keeps.
  rewrite E in H. by apply elem_of_nil in H.
Qed.

Lemma model_accept_normalized (P : model.faq -> Prop) x y f :
  (model.clean_text x <> [] -> model.clean_text y <> [] ->
   P {| model.Q := model.clean_text x; model.A := model.clean_text y |}) ->
  Forall P (model.faqs f) ->
  Forall P (model.faqs (model.accept (model.clean_text x) (model.clean_text y) f)).
Proof.
  intros HP H. unfold model.accept.
  destruct (truthy (model.clean_text x)) eqn:Hq; simpl; [|done].
  destruct (truthy (model.clean_text y)) eqn:Ha; simpl; [|done].
  repeat (case_bool_decide; simpl; [|done]).
  apply Forall_snoc; [done|]. apply HP; by apply truthy_true.
Qed.

Lemma model_modes_A_B_normalized (P : model.faq -> Prop) d :
  (forall x y, model.clean_text x <> [] -> model.clean_text y <> [] ->
               P {| model.Q := model.clean_text x; model.A := model.clean_text y |}) ->
  Forall P (model.faqs (model.mode_B d (model.mode_A d empty_found))).
Proof.
  intros HP. unfold model.mode_B.
  apply (fold_left_invariant (fun f => Forall P (model.faqs f))).
  { intros g dt Hg. destruct (find_next_sibling_named "dd" dt); [|done].
    apply model_accept_normalized; [apply HP|done]. }
  unfold model.mode_A.
  apply (fold_left_invariant (fun f => Forall P (model.faqs f))).
  { intros g x Hg. apply model_accept_normalized; [apply HP|done]. }
  simpl. apply Forall_nil_2.
Qed.

(** Mode C adds its pairs after those already found. *)
Lemma model_mode_C_appends d f :
  exists rest, model.faqs (model.mode_C d f) = model.faqs f ++ rest.
Proof.
  unfold model.mode_C.
  apply (fold_left_invariant (fun g => exists rest, model.faqs g = model.faqs f ++ rest)).
  - intros g h [rest Hg]. cbv zeta.
    destruct (truthy (model.clean_text _)); cbn [negb orb]; [|by exists rest].
    case_bool_decide; [by exists rest|].
    destruct (truthy (join _ _)); cbn [andb]; [|by exists rest].
    case_bool_decide; [|by exists rest].
    eexists. cbn [model.faqs]. rewrite Hg, <- app_assoc. reflexivity.
  - exists []. by rewrite app_nil_r.
Qed.

(** ** The fields of the pairs *)

(** C8 (as stated, fails): strategy 2 of [app.py] returns the texts of a
    [dt] and its [dd] as they are, here a pilcrow and a citation marker,
    which [clean_text] turns into the empty string; and mode C of
    [model.py] joins the normalized texts of two empty paragraphs with a
    space, an answer that [clean_text] turns into the empty string. *)
Lemma C8_fields_normalize_to_empty :
  app.extract_faqs_from_soup doc_symbol_dl
    = [{| app.question := [PILCROW]; app.answer := lit "[1]" |}]
  /\ app.clean_text [PILCROW] = []
  /\ app.clean_text (lit "[1]") = []
  /\ model.extract_faq_from_soup ascii_lower doc_empty_paragraphs
     = [{| model.Q := lit "How?"; model.A := [SP] |}]
  /\ model.clean_text [SP] = [].
Proof. repeat split; vm_compute; reflexivity. Qed.

(** C8 (amended): in every pair that [extract_faqs_from_html] of [app.py]
    or [extract_faq] of [model.py] returns, the question and the answer
    are not the empty string.  Normalized (again) with [clean_text], they
    are not the empty string either for every question of [model.py], for
    the answers of its modes A and B, whose pairs come first in what
    [extract_faq] returns, for the questions of strategy 3 of [app.py] and
    for both fields of its strategy 4. *)
Theorem C8_pairs_filled (d : soup) :
  Forall app_filled (app.extract_faqs_from_soup d)
  /\ (forall str_lower, Forall model_filled (model.extract_faq_from_soup str_lower d))
  /\ (forall str_lower,
        Forall (fun f => model.clean_text (model.Q f) <> [])
          (model.extract_faq_from_soup str_lower d))
  /\ Forall (fun f => model.clean_text (model.A f) <> [])
       (model.faqs (model.mode_B d (model.mode_A d empty_found)))
  /\ (forall str_lower, exists mode_C_pairs,
        model.extract_faq_from_soup str_lower d
        = model.faqs (model.mode_B (model.remove_noise str_lower d)
                        (model.mode_A (model.remove_noise str_lower d) empty_found))
          ++ mode_C_pairs)
  /\ Forall (fun f => app.clean_text (app.question f) <> []) (app.heading_paragraph d [])
  /\ Forall (fun f => app.clean_text (app.question f) <> []
                      /\ app.clean_text (app.answer f) <> [])
       (app.broad_search d []).
Proof.
  split.
  { unfold app.extract_faqs_from_soup. cbv zeta.
    rewrite app_explicit_qna_adds_nothing. simpl.
    repeat match goal with
           | |- Forall _ (if ?c then _ else _) => destruct c
           end;
      repeat first [ apply app_broad_search_filled | apply app_heading_paragraph_filled
                   | apply app_dt_dd_filled | apply Forall_nil_2 ]. }
  split.
  { intros str_lower. unfold model.extract_faq_from_soup. cbv zeta.
    apply (fold_left_invariant (fun f => Forall model_filled (model.faqs f))).
    { intros g h Hg. cbv zeta.
      destruct (truthy (model.clean_text _)) eqn:Hq; simpl; [|done].
      case_bool_decide; simpl; [done|].
      destruct (truthy (join _ _)) eqn:Ha; simpl; [|done].
      case_bool_decide; simpl; [|done].
      apply Forall_snoc; [done|]. split; simpl; by apply truthy_true. }
    apply (fold_left_invariant (fun f => Forall model_filled (model.faqs f))).
    { intros g dt Hg. destruct (find_next_sibling_named "dd" dt); [|done].
      by apply model_filled_accept. }
    apply (fold_left_invariant (fun f => Forall model_filled (model.faqs f))).
    { intros g x Hg. by apply model_filled_accept. }
    simpl. apply Forall_nil_2. }
  split.
  { intros str_lower. unfold model.extract_faq_from_soup. cbv zeta.
    apply (fold_left_invariant
             (fun f => Forall (fun f => model.clean_text (model.Q f) <> []) (model.faqs f))).
    { intros g h Hg. cbv zeta.
      destruct (truthy (model.clean_text _)) eqn:Hq; simpl; [|done].
      case_bool_decide; simpl; [done|].
      destruct (truthy (join _ _)) eqn:Ha; simpl; [|done].
      case_bool_decide; simpl; [|done].
      apply Forall_snoc; [done|]. simpl. by apply model_clean_text_again, truthy_true. }
    apply (model_modes_A_B_normalized (fun f => model.clean_text (model.Q f) <> [])).
    intros x y Hx _. simpl. by apply model_clean_text_again. }
  split.
  { apply (model_modes_A_B_normalized (fun f => model.clean_text (model.A f) <> [])).
    intros x y _ Hy. simpl. by apply model_clean_text_again. }
  split.
  { intros str_lower. exact (model_mode_C_appends _ _). }
  split.
  { eapply Forall_impl; [by apply app_heading_paragraph_questions|].
    intros f Hf. apply app_question_normalized. rewrite Hf. apply orb_true_r. }
  unfold app.broad_search. cbv zeta.
  pose proof (app_question_answer_lists_shape
                (map (fun t => get_text [SP] true (el_node t))
                   (find_all (name_in ["p"; "div"; "li"; "span"; "h2"; "h3"; "h4";
                                       "strong"; "b"]%string) d))) as [Hl Hz].
  destruct (app.question_answer_lists _) as [qs ans]. cbn [fst snd] in *.
  rewrite app_append_pairs. simpl.
  apply Forall_fmap. eapply Forall_impl; [exact Hz|].
  intros [q a] [Hq Ha]. split; [by apply app_question_normalized|by apply app_answer_normalized].
Qed.

(** ** An entry of the store of [app.py] over later runs *)




(** ** A second pass of [clean_text] of [model.py] *)

(** X23: applied to what it returned, [clean_text] of [model.py] only
    collapses the white space again; so applying it twice gives what
    applying it once gives exactly when the first pass left no run of
    spaces, as it does when it puts a space for a bracketed span between
    two spaces. *)
Theorem X23_model_clean_text_second_pass (s : str) :
  model.clean_text (model.clean_text s)
  = strip (sub (PlusG is_space) [SP] (model.clean_text s))
  /\ (model.clean_text (model.clean_text s) = model.clean_text s
      <-> spaced (model.clean_text s)).
Proof.
  split; [apply model_clean_text_twice|].
  rewrite model_clean_text_twice. split.
  - intros <-. apply strip_spaced, sub_spaces_spaced.
  - intros H. rewrite (sub_spaces_id _ H).
    unfold model.clean_text. cbv zeta. apply strip_strip.
Qed.

(** ** A page that the parser rejects, in [model.py] *)

(** X24: [extract_faq] of [model.py] calls the parser outside every
    [try]: when [fetch_html] returns a page that is not empty and the
    parser raises on it, [extract_faq] raises that exception, after what
    [fetch_html] logged, and so does the handling of a URL that is not in
    the store, which then stores and writes nothing. *)
Theorem X24_model_parser_error_propagates str_lower html_parser w url html log e s :
  model.fetch_html str_lower w url = (Returned html, log) ->
  truthy html = true ->
  html_parser html = Raised e ->
  model.extract_faq str_lower html_parser w url = (Raised e, log)
  /\ (truthy url = true -> dict_in url (model.faq_store s) = false ->
      model.on_url str_lower html_parser w url s = (Raised e, log)
      /\ session_after (model.on_url str_lower html_parser w url s) s = s).
Proof.
  intros Hf Ht Hp.
  assert (E : model.extract_faq str_lower html_parser w url = (Raised e, log)).
  { unfold model.extract_faq. rewrite Hf. cbn. rewrite Ht. cbn. rewrite Hp. cbn.
    by rewrite app_nil_r. }
  split; [exact E|]. intros Hu Hin.
  assert (E' : model.on_url str_lower html_parser w url s = (Raised e, log)).
  { unfold model.on_url. rewrite Hu, Hin, E. reflexivity. }
  split; [exact E'|]. unfold session_after. by rewrite E'.
Qed.

(** Tier 1 answers 200 with markup that the parser rejects. *)
Lemma X24_model_parser_error_propagates_witness :
  model.extract_faq ascii_lower sample_parser w_rejected url1
    = (Raised (Exception (lit "ParserRejectedMarkup")), [])
  /\ model.on_url ascii_lower sample_parser w_rejected url1 model_start
     = (Raised (Exception (lit "ParserRejectedMarkup")), []).
Proof.
  pose proof (X24_model_parser_error_propagates ascii_lower sample_parser w_rejected url1
                rejected_source [] (Exception (lit "ParserRejectedMarkup")) model_start
                eq_refl eq_refl eq_refl) as [H1 H2].
  exact (conj H1 (proj1 (H2 eq_refl eq_refl))).
Defined.
